(** * quiz.py: a shallow embedding and its verified properties

    The program is a command-line quiz runner: it loads a list of question
    records from a JSON file, validates them, selects some at random,
    asks them on the console and reports a score.

    The embedding follows the Python source function by function.
    Python values are a small universe of JSON values; the console, the
    random generator, the file system and the heap of mutable lists are
    fields of an explicit program state; exceptions are the error side of
    a state-and-exception monad. *)

From Stdlib Require Import ZArith QArith String Ascii List Lia Permutation.
From stdpp Require Import base gmap list strings.
Import ListNotations.

Local Open Scope Z_scope.
Local Open Scope string_scope.
Local Open Scope list_scope.

(** ** Strings

    A [string] is read as a sequence of code points below 256 (Latin-1).
    [strip] and [lower] are [str.strip()] and [str.lower()] on that range. *)

Module Str.

(** [str.isspace] on one character: TAB..CR, FS..US and SPACE, NEL, NBSP. *)
Definition isspace (c : ascii) : bool :=
  let n := nat_of_ascii c in
  (Nat.leb 9 n && Nat.leb n 13) || (Nat.leb 28 n && Nat.leb n 32)
  || Nat.eqb n 133 || Nat.eqb n 160.

Fixpoint lstrip (s : string) : string :=
  match s with
  | EmptyString => EmptyString
  | String c s' => if isspace c then lstrip s' else s
  end.

Fixpoint rstrip (s : string) : string :=
  match s with
  | EmptyString => EmptyString
  | String c s' =>
      match rstrip s' with
      | EmptyString => if isspace c then EmptyString else String c EmptyString
      | t => String c t
      end
  end.

Definition strip (s : string) : string := rstrip (lstrip s).

(** Upper-case letters of Latin-1: A..Z and the accented block without the
    multiplication sign. *)
Definition isupper (c : ascii) : bool :=
  let n := nat_of_ascii c in
  (Nat.leb 65 n && Nat.leb n 90)
  || (Nat.leb 192 n && Nat.leb n 222 && negb (Nat.eqb n 215)).

Definition lower_char (c : ascii) : ascii :=
  if isupper c then ascii_of_nat (nat_of_ascii c + 32) else c.

Fixpoint lower (s : string) : string :=
  match s with
  | EmptyString => EmptyString
  | String c s' => String (lower_char c) (lower s')
  end.

(** The normalisation [get_user_answer] applies to a line: [.strip().lower()]. *)
Definition normalize (s : string) : string := lower (strip s).

(** [x in xs] for a string and a list of strings. *)
Definition mem (x : string) (xs : list string) : bool :=
  existsb (String.eqb x) xs.

End Str.

(** ** Values

    What [json.load] can return: [None], booleans, integers, floats (kept as
    their 64-bit pattern), strings, lists and dicts.  A dict is the sequence
    of its insertions: a later item with the same key replaces the value and
    keeps the position of the first. *)

#[local] Set Warnings "-register-all".

Inductive value : Type :=
| VNone
| VBool (b : bool)
| VInt (n : Z)
| VFloat (bits : Z)
| VStr (s : string)
| VList (items : list value)
| VDict (items : list (string * value)).

Module Dict.

Abbreviation t := (list (string * value)) (only parsing).

(** [d[k]], as an option. *)
Fixpoint get (k : string) (d : t) : option value :=
  match d with
  | [] => None
  | (k', v) :: d' =>
      match get k d' with
      | Some w => Some w
      | None => if String.eqb k k' then Some v else None
      end
  end.

(** [list(d.keys())]: each key once, in order of first insertion. *)
Fixpoint keys (d : t) : list string :=
  match d with
  | [] => []
  | (k, _) :: d' => k :: List.filter (fun k' => negb (String.eqb k k')) (keys d')
  end.

(** [k in d] for a string key. *)
Definition contains (k : string) (d : t) : bool := Str.mem k (keys d).

(** [len(d)]. *)
Definition len (d : t) : Z := Z.of_nat (length (keys d)).

(** [d.items()]. *)
Definition items (d : t) : list (string * value) :=
  List.map (fun k => (k, default VNone (get k d))) (keys d).

End Dict.

(** ** Exceptions, console events and the program state *)

(** The text of the [ValueError]s the program raises, by raise site. *)
Inductive message : Type :=
| ExpectedList                                  (* "File format error: Expected a list of questions" *)
| MissingField (position : Z) (field : string)  (* "Question {i+1} is missing required field: {field}" *)
| TooFewOptions (position : Z)                  (* "Question {i+1} must have at least 2 options" *)
| InvalidAnswer (position : Z) (answer : value) (* "Question {i+1} has an invalid answer: {q['answer']}" *).

Inductive exn : Type :=
| SystemExit (code : Z)
| FileNotFoundError
| JSONDecodeError
| OSError
| ValueError (msg : message)
| TypeError (operand : value)
| KeyError (key : string)
| AttributeError (operand : value)
| IndexError
| EOFError
| ZeroDivisionError.

(** [isinstance(e, Exception)]: everything but [SystemExit]. *)
Definition is_Exception (e : exn) : bool :=
  match e with SystemExit _ => false | _ => true end.

(** [isinstance(e, ValueError)]; [json.JSONDecodeError] is a subclass. *)
Definition is_ValueError (e : exn) : bool :=
  match e with ValueError _ | JSONDecodeError => true | _ => false end.

(** One constructor per [print] (and per [input] prompt) of the program,
    with the values its f-string interpolates. *)
Inductive event : Type :=
| PrintFileNotFound (filename : string)   (* "Error: File '{filename}' not found." *)
| PrintInvalidJSON (filename : string)    (* "Error: File '{filename}' contains invalid JSON." *)
| PrintLoadError (e : exn)                (* "Error loading questions: {str(e)}" *)
| PrintWarning (count available : Z)      (* "Warning: Requested {count} questions, but only {n} are available." *)
| PrintProceeding (available : Z)         (* "Proceeding with all {n} questions." *)
| PrintQuestionNumber (question_num : Z)  (* "\nQuestion {question_num}:" *)
| PrintText (text : value)                (* print(question["q"]) *)
| PrintOptionsHeader                      (* "Options:" *)
| PrintOption (key : string) (text : value) (* "  {option_key}: {option_value}" *)
| Prompt (valid_options : list string)    (* "Your answer ({', '.join(valid_options)}): " *)
| PrintInvalid (valid_options : list string) (* "Invalid answer. Please enter one of: ..." *)
| PrintCorrect                            (* "Correct!" *)
| PrintIncorrect (correct_option : value) (* "Incorrect. The correct answer is: {correct_option}" *)
| PrintExplanation (text : value)         (* "Explanation: {question['answer_description']}" *)
| PrintBadCount                           (* "Error: Number of questions must be at least 1." *)
| PrintStarting (n : Z)                   (* "\nStarting quiz with {n} questions..." *)
| PrintScore (correct total : Z) (score_percentage : Q)
                                          (* "\nQuiz complete! Your score: {correct}/{total} ({score_percentage:.1f}%)" *)
| PrintError (e : exn)                    (* "Error: {str(e)}" *)
| PrintUnexpected (e : exn)               (* "Unexpected error: {str(e)}" *).

(** What [open] followed by [json.load] finds under a path. *)
Inductive file : Type :=
| Absent                 (* no such file *)
| Unreadable             (* any other failure of [open] or [read] *)
| Malformed              (* not valid JSON *)
| Document (v : value)   (* the parsed document *).

Definition loc : Type := nat.

Record state : Type := mkState {
  heap    : gmap loc (list value);  (* the list objects, by address *)
  files   : string -> file;         (* the file system *)
  opened  : list string;            (* paths passed to [open] so far *)
  entropy : nat -> nat;             (* the raw draws of the random generator *)
  drawn   : nat;                    (* how many were consumed *)
  stdin   : list string;            (* the lines still to be read *)
  stdout  : list event              (* what was printed, oldest first *)
}.

Definition set_heap (h : gmap loc (list value)) (s : state) : state :=
  mkState h (files s) (opened s) (entropy s) (drawn s) (stdin s) (stdout s).
Definition set_opened (o : list string) (s : state) : state :=
  mkState (heap s) (files s) o (entropy s) (drawn s) (stdin s) (stdout s).
Definition set_drawn (n : nat) (s : state) : state :=
  mkState (heap s) (files s) (opened s) (entropy s) n (stdin s) (stdout s).
Definition set_stdin (i : list string) (s : state) : state :=
  mkState (heap s) (files s) (opened s) (entropy s) (drawn s) i (stdout s).
Definition set_stdout (o : list event) (s : state) : state :=
  mkState (heap s) (files s) (opened s) (entropy s) (drawn s) (stdin s) o.

(** ** The monad of Python computations *)

Inductive result (A : Type) : Type :=
| Ok (a : A)
| Raise (e : exn).
Arguments Ok {A} a.
Arguments Raise {A} e.

Definition M (A : Type) : Type := state -> result A * state.

Definition ret {A} (a : A) : M A := fun s => (Ok a, s).
Definition raise {A} (e : exn) : M A := fun s => (Raise e, s).
Definition bind {A B} (c : M A) (k : A -> M B) : M B :=
  fun s => match c s with
           | (Ok a, s') => k a s'
           | (Raise e, s') => (Raise e, s')
           end.

Notation "x <- c ;; k" := (bind c (fun x => k))
  (at level 100, c at next level, right associativity).
Notation "c ;; k" := (bind c (fun _ => k))
  (at level 100, right associativity).

(** [try: c  except ...: handler e], where [handles] selects the exceptions
    the clauses catch; the others propagate. *)
Definition try_except {A} (c : M A) (handles : exn -> bool) (handler : exn -> M A) : M A :=
  fun s => match c s with
           | (Raise e, s') => if handles e then handler e s' else (Raise e, s')
           | r => r
           end.

Definition print (e : event) : M unit :=
  fun s => (Ok tt, set_stdout (stdout s ++ [e]) s).

(** [sys.exit(code)]. *)
Definition sys_exit {A} (code : Z) : M A := raise (SystemExit code).

(** [input(prompt)]: writes the prompt, then reads a line or raises at
    end of input. *)
Definition input (prompt : event) : M string :=
  print prompt ;;
  fun s => match stdin s with
           | [] => (Raise EOFError, s)
           | line :: rest => (Ok line, set_stdin rest s)
           end.

(** A new list object holding [xs]; returns its address. *)
Definition alloc (xs : list value) : M loc :=
  fun s => let l := fresh (dom (heap s)) in
           (Ok l, set_heap (<[l := xs]> (heap s)) s).

(** The items of the list object at [l]. *)
Definition deref (l : loc) : M (list value) :=
  fun s => (Ok (default [] (heap s !! l)), s).

(** Overwrites the items of the list object at [l]. *)
Definition store (l : loc) (xs : list value) : M unit :=
  fun s => (Ok tt, set_heap (<[l := xs]> (heap s)) s).

(** ** The Python operations the program applies to values *)

Module Py.

(** [key in container] for a string [key]: a key of a dict, an item of
    a list, a substring of a string; other values are not containers. *)
Definition contains (key : string) (container : value) : M bool :=
  match container with
  | VDict d => ret (Dict.contains key d)
  | VList xs =>
      ret (existsb (fun x => match x with VStr s => String.eqb key s | _ => false end) xs)
  | VStr s => ret (match String.index 0 key s with Some _ => true | None => false end)
  | _ => raise (TypeError container)
  end.

(** [obj[key]] for a string [key]. *)
Definition getitem (obj : value) (key : string) : M value :=
  match obj with
  | VDict d =>
      match Dict.get key d with
      | Some v => ret v
      | None => raise (KeyError key)
      end
  | _ => raise (TypeError obj)
  end.

(** [x in d] for a dict [d]: [x] is hashed first, and lists and dicts are
    unhashable; the keys of a loaded dict are strings. *)
Definition dict_contains (x : value) (d : Dict.t) : M bool :=
  match x with
  | VStr k => ret (Dict.contains k d)
  | VList _ | VDict _ => raise (TypeError x)
  | _ => ret false
  end.

(** [obj.keys()], as a list. *)
Definition keys (obj : value) : M (list string) :=
  match obj with
  | VDict d => ret (Dict.keys d)
  | _ => raise (AttributeError obj)
  end.

(** [obj.items()]. *)
Definition items (obj : value) : M (list (string * value)) :=
  match obj with
  | VDict d => ret (Dict.items d)
  | _ => raise (AttributeError obj)
  end.

(** [s == v] for a string [s]. *)
Definition str_eq (s : string) (v : value) : bool :=
  match v with
  | VStr t => String.eqb s t
  | _ => false
  end.

(** [xs[:stop]]. *)
Definition slice_to (stop : Z) (xs : list value) : list value :=
  let n := Z.of_nat (length xs) in
  let stop' := if Z.ltb stop 0 then Z.max 0 (stop + n) else Z.min stop n in
  firstn (Z.to_nat stop') xs.

(** [random._randbelow(n)] for a positive [n]: the next draw, brought into
    [0, n). *)
Definition randbelow (n : nat) : M nat :=
  fun s => (Ok (entropy s (drawn s) mod n)%nat, set_drawn (S (drawn s)) s).

(** [x[i], x[j] = x[j], x[i]] on the list object at [x]: both items are
    read, then [x[i]] and [x[j]] are written; an index out of range raises. *)
Definition swap (x : loc) (i j : nat) : M unit :=
  xs <- deref x ;;
  match xs !! j, xs !! i with
  | Some xj, Some xi => store x (<[j := xi]> (<[i := xj]> xs))
  | _, _ => raise IndexError
  end.

(** The loop of [random.shuffle]: [for i in reversed(range(1, n + 1))]. *)
Fixpoint shuffle_down (x : loc) (n : nat) : M unit :=
  match n with
  | O => ret tt
  | S n' =>
      j <- randbelow (S n) ;;
      swap x n j ;;
      shuffle_down x n'
  end.

(** [random.shuffle(x)], the standard library's in-place Fisher-Yates:
    [for i in reversed(range(1, len(x))): j = randbelow(i + 1); swap]. *)
Definition shuffle (x : loc) : M unit :=
  xs <- deref x ;;
  shuffle_down x (length xs - 1).

(** [xs.copy()]: a new list object with the same items. *)
Definition copy (xs : loc) : M loc :=
  items <- deref xs ;;
  alloc items.

(** [a / b] on integers: the exact quotient (the double Python computes is
    the one nearest to it), or [ZeroDivisionError]. *)
Definition truediv (a b : Z) : M Q :=
  if Z.eqb b 0 then raise ZeroDivisionError
  else ret (Qmake a 1 / Qmake b 1)%Q.

(** [len(xs)] for a list. *)
Definition len (xs : list value) : Z := Z.of_nat (length xs).

(** [open(filename, 'r')] and [json.load(file)]. *)
Definition open_and_load (filename : string) : M value :=
  fun s =>
    let s' := set_opened (opened s ++ [filename]) s in
    match files s filename with
    | Absent => (Raise FileNotFoundError, s')
    | Unreadable => (Raise OSError, s')
    | Malformed => (Raise JSONDecodeError, s')
    | Document v => (Ok v, s')
    end.

End Py.

(** ** The program *)

Definition load_questions (filename : string) : M loc :=
  try_except
    (questions <- Py.open_and_load filename ;;
     match questions with
     | VList items => alloc items
     | _ => raise (ValueError ExpectedList)
     end)
    is_Exception
    (fun e =>
       match e with
       | FileNotFoundError => print (PrintFileNotFound filename) ;; sys_exit 1
       | JSONDecodeError => print (PrintInvalidJSON filename) ;; sys_exit 1
       | _ => print (PrintLoadError e) ;; sys_exit 1
       end).

Definition required_fields : list string :=
  ["id"; "q"; "options"; "answer"; "answer_description"].

(** The inner loop of [validate_questions]: [for field in required_fields]. *)
Fixpoint check_fields (i : Z) (q : value) (fields : list string) : M unit :=
  match fields with
  | [] => ret tt
  | field :: rest =>
      present <- Py.contains field q ;;
      if present then check_fields i q rest
      else raise (ValueError (MissingField (i + 1) field))
  end.

(** The body of the outer loop of [validate_questions], for the record [q]
    at index [i]. *)
Definition validate_question (i : Z) (q : value) : M unit :=
  check_fields i q required_fields ;;
  options <- Py.getitem q "options" ;;
  match options with
  | VDict d =>
      if Z.ltb (Dict.len d) 2 then raise (ValueError (TooFewOptions (i + 1)))
      else
        answer <- Py.getitem q "answer" ;;
        present <- Py.dict_contains answer d ;;
        if present then ret tt
        else raise (ValueError (InvalidAnswer (i + 1) answer))
  | _ => raise (ValueError (TooFewOptions (i + 1)))
  end.

(** [for i, q in enumerate(questions)], from index [i] on. *)
Fixpoint validate_from (i : Z) (questions : list value) : M unit :=
  match questions with
  | [] => ret tt
  | q :: rest => validate_question i q ;; validate_from (i + 1) rest
  end.

Definition validate_questions (questions : list value) : M unit :=
  validate_from 0 questions.

(** [questions] is the address of the list object: the function copies it
    and shuffles the copy in place. *)
Definition select_random_questions (questions : loc) (count : Z) : M loc :=
  items <- deref questions ;;
  if Z.ltb (Z.of_nat (length items)) count then
    print (PrintWarning count (Z.of_nat (length items))) ;;
    Py.copy questions
  else
    shuffled <- Py.copy questions ;;
    Py.shuffle shuffled ;;
    items' <- deref shuffled ;;
    alloc (Py.slice_to count items').

(** The loop of [display_question] over [question["options"].items()]. *)
Fixpoint print_options (items : list (string * value)) : M unit :=
  match items with
  | [] => ret tt
  | (option_key, option_value) :: rest =>
      print (PrintOption option_key option_value) ;;
      print_options rest
  end.

Definition display_question (question : value) (question_num : Z) : M unit :=
  print (PrintQuestionNumber question_num) ;;
  text <- Py.getitem question "q" ;;
  print (PrintText text) ;;
  print PrintOptionsHeader ;;
  options <- Py.getitem question "options" ;;
  items <- Py.items options ;;
  print_options items.

(** The [while True] loop of [get_user_answer], by recursion on the lines
    that remain on standard input; with none left, [input] raises. *)
Fixpoint answer_loop (valid_options : list string) (lines : list string) : M string :=
  match lines with
  | [] => _ <- input (Prompt valid_options) ;; raise EOFError
  | _ :: rest =>
      line <- input (Prompt valid_options) ;;
      let user_answer := Str.normalize line in
      if Str.mem user_answer valid_options then ret user_answer
      else
        print (PrintInvalid valid_options) ;;
        answer_loop valid_options rest
  end.

Definition get_user_answer (question : value) : M string :=
  options <- Py.getitem question "options" ;;
  valid_options <- Py.keys options ;;
  fun s => answer_loop valid_options (stdin s) s.

(** [for i, question in enumerate(questions)], from index [i] on, with the
    tally so far. *)
Fixpoint run_quiz_from (i correct_answers : Z) (questions : list value) : M Z :=
  match questions with
  | [] => ret correct_answers
  | question :: rest =>
      display_question question (i + 1) ;;
      user_answer <- get_user_answer question ;;
      answer <- Py.getitem question "answer" ;;
      correct_answers' <-
        (if Py.str_eq user_answer answer then
           print PrintCorrect ;;
           ret (correct_answers + 1)
         else
           correct_option <- Py.getitem question "answer" ;;
           print (PrintIncorrect correct_option) ;;
           ret correct_answers) ;;
      explanation <- Py.getitem question "answer_description" ;;
      print (PrintExplanation explanation) ;;
      run_quiz_from (i + 1) correct_answers' rest
  end.

Definition run_quiz (questions : list value) : M Z :=
  run_quiz_from 0 0 questions.

(** [main], after [argparse] has produced [args.filename] and [args.count]. *)
Definition main (filename : string) (count : Z) : M unit :=
  (if Z.ltb count 1 then print PrintBadCount ;; sys_exit 1 else ret tt) ;;
  try_except
    (questions <- load_questions filename ;;
     loaded <- deref questions ;;
     validate_questions loaded ;;
     selected_questions <-
       (if Z.ltb (Py.len loaded) count then
          print (PrintWarning count (Py.len loaded)) ;;
          print (PrintProceeding (Py.len loaded)) ;;
          ret questions
        else select_random_questions questions count) ;;
     selected <- deref selected_questions ;;
     print (PrintStarting (Py.len selected)) ;;
     correct_answers <- run_quiz selected ;;
     ratio <- Py.truediv correct_answers (Py.len selected) ;;
     let score_percentage := (ratio * Qmake 100 1)%Q in
     print (PrintScore correct_answers (Py.len selected) score_percentage))
    is_Exception
    (fun e =>
       if is_ValueError e then print (PrintError e) ;; sys_exit 1
       else print (PrintUnexpected e) ;; sys_exit 1).

(** The exit status of the process, from the way [main] ends. *)
Definition exit_status {A} (r : result A) : Z :=
  match r with
  | Ok _ => 0
  | Raise (SystemExit code) => code
  | Raise _ => 1
  end.

(** A state to start a run from: an empty heap, nothing opened or printed. *)
Definition initial (fs : string -> file) (rnd : nat -> nat) (lines : list string) : state :=
  mkState ∅ fs [] rnd 0 lines [].

(** ** Vocabulary of the specification *)

(** The parts of the state that only the console and the loader touch. *)
Definition same_world (s s' : state) : Prop :=
  stdout s' = stdout s /\ stdin s' = stdin s /\
  opened s' = opened s /\ files s' = files s /\ entropy s' = entropy s.

(** Every list object of [s] is still there in [s'], with the same items. *)
Definition preserves_lists (s s' : state) : Prop :=
  forall l : loc, is_Some (heap s !! l) -> heap s' !! l = heap s !! l.

(** The three invariants of a question record, in the words of the data
    model: all five fields, at least two options, and an answer that is a
    key of the options. *)
Definition has_all_fields (q : Dict.t) : Prop :=
  forall field, In field required_fields -> is_Some (Dict.get field q).

Definition has_two_options (q : Dict.t) : Prop :=
  exists d, Dict.get "options" q = Some (VDict d) /\ 2 <= Dict.len d.

Definition answer_in_options (q : Dict.t) : Prop :=
  exists d a,
    Dict.get "options" q = Some (VDict d) /\
    Dict.get "answer" q = Some (VStr a) /\
    In a (Dict.keys d).

Definition valid_record (q : Dict.t) : Prop :=
  has_all_fields q /\ has_two_options q /\ answer_in_options q.

(** The outcome of the body of the validator's loop on the record [q] at
    index [i], as one expression: the first missing field, else the
    options, else the answer. *)
Definition verdict (i : Z) (q : Dict.t) : result unit :=
  match List.find (fun field => negb (Dict.contains field q)) required_fields with
  | Some field => Raise (ValueError (MissingField (i + 1) field))
  | None =>
      match Dict.get "options" q with
      | Some (VDict d) =>
          if Z.ltb (Dict.len d) 2 then Raise (ValueError (TooFewOptions (i + 1)))
          else
            match Dict.get "answer" q with
            | Some (VStr a) =>
                if Dict.contains a d then Ok tt
                else Raise (ValueError (InvalidAnswer (i + 1) (VStr a)))
            | Some (VList xs) => Raise (TypeError (VList xs))
            | Some (VDict xs) => Raise (TypeError (VDict xs))
            | Some answer => Raise (ValueError (InvalidAnswer (i + 1) answer))
            | None => Raise (KeyError "answer")
            end
      | Some _ => Raise (ValueError (TooFewOptions (i + 1)))
      | None => Raise (KeyError "options")
      end
  end.

(** Whether Python can hash a value, as a dict lookup requires. *)
Definition hashable (v : value) : bool :=
  match v with
  | VList _ | VDict _ => false
  | _ => true
  end.

(** [e] names the record at 1-based [position] and a defect [q] has. *)
Definition describes (e : exn) (position : Z) (q : Dict.t) : Prop :=
  (exists field, e = ValueError (MissingField position field) /\
                 In field required_fields /\ Dict.get field q = None)
  \/ (e = ValueError (TooFewOptions position) /\ ~ has_two_options q)
  \/ (exists answer, e = ValueError (InvalidAnswer position answer) /\
                     Dict.get "answer" q = Some answer /\ ~ answer_in_options q).

(** A line the runner rejects: it does not normalise to a valid option. *)
Definition rejected_by (valid_options : list string) (line : string) : Prop :=
  Str.mem (Str.normalize line) valid_options = false.

(** What the console shows while [rejected] lines are typed: each is
    prompted for and answered by the list of valid keys. *)
Definition reprompts (valid_options : list string) (rejected : list string) : list event :=
  flat_map (fun _ => [Prompt valid_options; PrintInvalid valid_options]) rejected.

(** The console after the prompts for [rejected] lines and one more. *)
Definition prompted (valid_options rejected : list string) (s : state) : state :=
  set_stdout (stdout s ++ reprompts valid_options rejected ++ [Prompt valid_options]) s.

(** What [display_question] prints for a question with text [text] and
    options [d], as number [n]. *)
Definition shown (text : value) (d : Dict.t) (n : Z) : list event :=
  [PrintQuestionNumber n; PrintText text; PrintOptionsHeader]
  ++ List.map (fun kv => PrintOption (fst kv) (snd kv)) (Dict.items d).

(** What [run_quiz] prints once the answer [user_answer] is in, for a
    question with answer key [a] and explanation [e]: the verdict, then
    the explanation. *)
Definition feedback (a : string) (e : value) (user_answer : string) : list event :=
  [if String.eqb user_answer a then PrintCorrect else PrintIncorrect (VStr a);
   PrintExplanation e].

(** The fields of a record the session reads. *)
Definition options_of (q : Dict.t) : Dict.t :=
  match Dict.get "options" q with Some (VDict d) => d | _ => [] end.

Definition answer_key (q : Dict.t) : string :=
  match Dict.get "answer" q with Some (VStr a) => a | _ => "" end.

Definition explanation (q : Dict.t) : value :=
  default VNone (Dict.get "answer_description" q).

(** The answer a script gives to one question: the first line that
    normalises to a valid option, normalised, and the lines after it. *)
Fixpoint next_answer (valid_options : list string) (lines : list string)
  : option (string * list string) :=
  match lines with
  | [] => None
  | line :: rest =>
      if Str.mem (Str.normalize line) valid_options
      then Some (Str.normalize line, rest)
      else next_answer valid_options rest
  end.

(** The answers a script gives to the questions, in turn, as far as its
    lines reach. *)
Fixpoint script_answers (records : list Dict.t) (lines : list string) : list string :=
  match records with
  | [] => []
  | q :: records' =>
      match next_answer (Dict.keys (options_of q)) lines with
      | Some (user_answer, rest) => user_answer :: script_answers records' rest
      | None => []
      end
  end.

(** The number of answers that are the answer key of their question. *)
Fixpoint tally (records : list Dict.t) (answers : list string) : Z :=
  match records, answers with
  | q :: records', user_answer :: answers' =>
      (if String.eqb user_answer (answer_key q) then 1 else 0) + tally records' answers'
  | _, _ => 0
  end.

(** The verdicts and explanations a session owes for these answers. *)
Fixpoint expected_feedback (records : list Dict.t) (answers : list string) : list event :=
  match records, answers with
  | q :: records', user_answer :: answers' =>
      feedback (answer_key q) (explanation q) user_answer
      ++ expected_feedback records' answers'
  | _, _ => []
  end.

Definition is_feedback (e : event) : bool :=
  match e with
  | PrintCorrect | PrintIncorrect _ | PrintExplanation _ => true
  | _ => false
  end.

(** A computation that neither reads nor changes the state: it has one
    outcome, whatever the state. *)
Definition stateless {A} (c : M A) : Prop :=
  exists r, forall s, c s = (r, s).

(** A computation that stays inside the program: it opens no file, keeps
    the file system, and if it raises, raises an [Exception] (never
    [SystemExit]). *)
Definition contained {A} (c : M A) : Prop :=
  forall s r s', c s = (r, s') ->
    opened s' = opened s /\ files s' = files s /\
    forall e, r = Raise e -> is_Exception e = true.

(** Whether the answer key of a record is in normal form, that is, can be
    typed at all. *)
Definition normal_key (q : Dict.t) : bool :=
  String.eqb (Str.normalize (answer_key q)) (answer_key q).

(** The lines a script has left when the session is over: those after
    the last answer, or none if the input ended first. *)
Fixpoint script_rest (records : list Dict.t) (lines : list string) : list string :=
  match records with
  | [] => lines
  | q :: records' =>
      match next_answer (Dict.keys (options_of q)) lines with
      | Some (_, rest) => script_rest records' rest
      | None => []
      end
  end.

Definition is_question_number (e : event) : bool :=
  match e with PrintQuestionNumber _ => true | _ => false end.

(** The headers "Question first+1:", ..., "Question first+n:". *)
Fixpoint question_numbers (first : Z) (n : nat) : list event :=
  match n with
  | O => []
  | S n' => PrintQuestionNumber (first + 1) :: question_numbers (first + 1) n'
  end.

(** ** Sample data *)

Module Sample.

Definition record (id : Z) (text : string) (options : Dict.t) (answer : value)
    (description : string) : Dict.t :=
  [("id", VInt id); ("q", VStr text); ("options", VDict options);
   ("answer", answer); ("answer_description", VStr description)].

Definition sum : Dict.t :=
  record 1 "2 + 2?" [("a", VStr "3"); ("b", VStr "4")] (VStr "b") "Two and two make four.".

Definition capital : Dict.t :=
  record 2 "Capital of France?"
    [("a", VStr "Paris"); ("b", VStr "Rome"); ("c", VStr "Oslo")] (VStr "a")
    "Paris is the capital.".

Definition prime : Dict.t :=
  record 3 "Which is prime?" [("a", VStr "9"); ("b", VStr "7")] (VStr "b")
    "Seven has no divisors.".

(** Well-formed but with upper-case option keys. *)
Definition upper : Dict.t :=
  record 4 "Largest planet?" [("A", VStr "Jupiter"); ("B", VStr "Mars")] (VStr "A")
    "Jupiter is the largest.".

(** The answer is a JSON array instead of a key. *)
Definition unhashable : Dict.t :=
  record 5 "2 + 2?" [("a", VStr "3"); ("b", VStr "4")] (VList [VStr "b"])
    "Two and two make four.".

Definition questions : list Dict.t := [sum; capital; prime].

(** A run that finds [document] under every path, draws 0, 1, 2, ... and
    reads [lines]. *)
Definition run (document : value) (lines : list string) : state :=
  initial (fun _ => Document document) (fun n => n) lines.

(** The same, with the list object 0 already holding [items]. *)
Definition with_list (items : list value) (lines : list string) : state :=
  set_heap {[ 0%nat := items ]} (run VNone lines).

End Sample.

(** * Properties *)

(** ** The model at work *)

Section Examples.

Example normalize_trims_and_folds : Str.normalize "  B " = "b".
Proof. reflexivity. Qed.

Example normalize_keeps_inner_space : Str.normalize " New York " = "new york".
Proof. reflexivity. Qed.

Example validate_missing_field :
  fst (validate_questions
         [VDict Sample.sum; VDict [("id", VInt 7); ("q", VStr "?")]; VInt 3]
         (Sample.run VNone []))
  = Raise (ValueError (MissingField 2 "options")).
Proof. reflexivity. Qed.

Example validate_single_option :
  fst (validate_questions
         [VDict Sample.sum; VDict (Sample.record 7 "?" [("a", VStr "x")] (VStr "a") "d")]
         (Sample.run VNone []))
  = Raise (ValueError (TooFewOptions 2)).
Proof. reflexivity. Qed.

Example validate_unknown_answer :
  fst (validate_questions
         [VDict (Sample.record 7 "?" [("a", VStr "x"); ("b", VStr "y")] (VStr "c") "d")]
         (Sample.run VNone []))
  = Raise (ValueError (InvalidAnswer 1 (VStr "c"))).
Proof. reflexivity. Qed.

(** Two of four with the draws 0, 1, 2: the copy at address 1 is shuffled,
    the original at address 0 is not. *)
Example select_two_of_four :
  let r := select_random_questions 0%nat 2
             (Sample.with_list [VInt 10; VInt 20; VInt 30; VInt 40] []) in
  fst r = Ok 2%nat /\
  heap (snd r) !! 2%nat = Some [VInt 30; VInt 40] /\
  heap (snd r) !! 1%nat = Some [VInt 30; VInt 40; VInt 20; VInt 10] /\
  heap (snd r) !! 0%nat = Some [VInt 10; VInt 20; VInt 30; VInt 40].
Proof. by vm_compute. Qed.

(** A whole run: two of the three sample questions, one line rejected. *)
Example main_two_questions :
  let r := main "quiz.q" 2
             (Sample.run (VList (List.map VDict Sample.questions)) ["B"; "x"; " a "; "b"]) in
  fst r = Ok tt /\
  stdin (snd r) = ["b"] /\
  stdout (snd r) =
    [PrintStarting 2;
     PrintQuestionNumber 1; PrintText (VStr "Which is prime?"); PrintOptionsHeader;
     PrintOption "a" (VStr "9"); PrintOption "b" (VStr "7");
     Prompt ["a"; "b"]; PrintCorrect; PrintExplanation (VStr "Seven has no divisors.");
     PrintQuestionNumber 2; PrintText (VStr "Capital of France?"); PrintOptionsHeader;
     PrintOption "a" (VStr "Paris"); PrintOption "b" (VStr "Rome");
     PrintOption "c" (VStr "Oslo");
     Prompt ["a"; "b"; "c"]; PrintInvalid ["a"; "b"; "c"];
     Prompt ["a"; "b"; "c"]; PrintCorrect; PrintExplanation (VStr "Paris is the capital.");
     PrintScore 2 2 (Qmake 200 2)].
Proof. by vm_compute. Qed.

(** A file that is not a list is refused by the loader. *)
Example main_not_a_list :
  let r := main "quiz.q" 5 (Sample.run (VDict []) ["a"]) in
  fst r = Raise (SystemExit 1) /\
  stdout (snd r) = [PrintLoadError (ValueError ExpectedList)].
Proof. by vm_compute. Qed.

(** The record with an unhashable answer, seen from the console: the run
    ends with the catch-all message, not with the validator's. *)
Example main_unhashable_answer :
  let r := main "quiz.q" 1 (Sample.run (VList [VDict Sample.unhashable]) ["b"]) in
  fst r = Raise (SystemExit 1) /\
  stdout (snd r) = [PrintUnexpected (TypeError (VList [VStr "b"]))].
Proof. by vm_compute. Qed.

(** The question with upper-case keys, seen from the console. *)
Example main_upper_case_keys :
  let r := main "quiz.q" 1 (Sample.run (VList [VDict Sample.upper]) ["A"]) in
  fst r = Raise (SystemExit 1) /\
  stdout (snd r) =
    [PrintStarting 1;
     PrintQuestionNumber 1; PrintText (VStr "Largest planet?"); PrintOptionsHeader;
     PrintOption "A" (VStr "Jupiter"); PrintOption "B" (VStr "Mars");
     Prompt ["A"; "B"]; PrintInvalid ["A"; "B"]; Prompt ["A"; "B"];
     PrintUnexpected EOFError].
Proof. by vm_compute. Qed.

End Examples.

(** ** The heap: copies, the shuffle, and what they leave alone *)

Section Heap.

Implicit Types (s : state) (x l : loc) (xs : list value).

(** A swap of two positions in range rearranges the list at [x] and
    nothing else. *)
Lemma swap_spec x i j s xs :
  heap s !! x = Some xs -> (i < length xs)%nat -> (j < length xs)%nat ->
  exists xs',
    Py.swap x i j s = (Ok tt, set_heap (<[x := xs']> (heap s)) s) /\
    xs' ≡ₚ xs.
Proof.
  intros Hx Hi Hj.
  destruct (lookup_lt_is_Some_2 xs i Hi) as [xi Hxi].
  destruct (lookup_lt_is_Some_2 xs j Hj) as [xj Hxj].
  exists (<[j := xi]> (<[i := xj]> xs)). split.
  - unfold Py.swap, bind, deref, store. rewrite Hx. simpl. by rewrite Hxj, Hxi.
  - by apply Permutation_insert_swap.
Qed.

(** The loop of the shuffle ends normally, leaves a permutation at [x],
    and changes no other list object. *)
Lemma shuffle_down_spec n x s xs :
  heap s !! x = Some xs -> (n < length xs \/ n = 0)%nat ->
  exists xs' s',
    Py.shuffle_down x n s = (Ok tt, s') /\
    heap s' = <[x := xs']> (heap s) /\
    xs' ≡ₚ xs /\ same_world s s'.
Proof.
  revert s xs. induction n as [|n IH]; intros s xs Hx Hn.
  - exists xs, s. repeat split; try done. by rewrite insert_id.
  - assert (S n < length xs)%nat as Hlt by lia.
    pose (j := (entropy s (drawn s) mod S (S n))%nat).
    assert (j < S (S n))%nat as Hj by (apply Nat.mod_upper_bound; lia).
    destruct (swap_spec x (S n) j (set_drawn (S (drawn s)) s) xs) as (xs1 & Hswap & Hperm1);
      [done | done | lia |].
    destruct (IH (set_heap (<[x := xs1]> (heap s)) (set_drawn (S (drawn s)) s)) xs1)
      as (xs' & s' & Hrun & Hheap & Hperm & Hworld).
    { simpl. by rewrite lookup_insert_eq. }
    { left. rewrite (Permutation_length Hperm1). lia. }
    exists xs', s'. split; [|split; [|split]].
    + cbn [Py.shuffle_down]. unfold bind at 1. unfold Py.randbelow at 1.
      fold j. unfold bind at 1. simpl in Hswap. rewrite Hswap. exact Hrun.
    + rewrite Hheap. simpl. by rewrite insert_insert_eq.
    + by rewrite Hperm.
    + destruct Hworld as (?&?&?&?&?). by repeat split.
Qed.

Lemma shuffle_spec x s xs :
  heap s !! x = Some xs ->
  exists xs' s',
    Py.shuffle x s = (Ok tt, s') /\
    heap s' = <[x := xs']> (heap s) /\
    xs' ≡ₚ xs /\ same_world s s'.
Proof.
  intros Hx.
  destruct (shuffle_down_spec (length xs - 1) x s xs Hx) as (xs' & s' & H); [lia|].
  exists xs', s'. unfold Py.shuffle, bind, deref. by rewrite Hx.
Qed.

(** A copy is a new list object with the same items. *)
Lemma copy_spec x s :
  let l := fresh (dom (heap s)) in
  Py.copy x s = (Ok l, set_heap (<[l := default [] (heap s !! x)]> (heap s)) s) /\
  heap s !! l = None.
Proof.
  split; [done|]. apply not_elem_of_dom, is_fresh.
Qed.

(** [select_random_questions] when more is requested than there is: the
    warning, and a new list with the items of [questions]. *)
Lemma select_undersupply questions count s :
  let items := default [] (heap s !! questions) in
  Z.of_nat (length items) < count ->
  exists l s',
    select_random_questions questions count s = (Ok l, s') /\
    heap s !! l = None /\
    heap s' = <[l := items]> (heap s) /\
    stdout s' = stdout s ++ [PrintWarning count (Z.of_nat (length items))] /\
    stdin s' = stdin s /\ opened s' = opened s.
Proof.
  intros items Hlt.
  exists (fresh (dom (heap s))). eexists. split; [|split].
  - unfold select_random_questions, bind at 1, deref at 1. fold items.
    apply Z.ltb_lt in Hlt. rewrite Hlt.
    unfold bind at 1, print at 1. reflexivity.
  - apply not_elem_of_dom, is_fresh.
  - simpl. by repeat split.
Qed.

(** [select_random_questions] otherwise: a new list holding a prefix of
    some permutation of the items of [questions]; nothing is printed. *)
Lemma select_sample questions count s :
  let items := default [] (heap s !! questions) in
  count <= Z.of_nat (length items) ->
  exists shuffled l s',
    select_random_questions questions count s = (Ok l, s') /\
    shuffled ≡ₚ items /\
    heap s' !! l = Some (Py.slice_to count shuffled) /\
    heap s !! l = None /\
    preserves_lists s s' /\
    stdout s' = stdout s /\ stdin s' = stdin s /\ opened s' = opened s.
Proof.
  intros items Hle.
  destruct (copy_spec questions s) as [Hcopy Hfresh]. fold items in Hcopy.
  set (l1 := fresh (dom (heap s))) in *.
  set (s1 := set_heap (<[l1 := items]> (heap s)) s) in *.
  destruct (shuffle_spec l1 s1 items) as (sh & s2 & Hsh & Hheap2 & Hperm & Hworld).
  { simpl. by rewrite lookup_insert_eq. }
  set (l2 := fresh (dom (heap s2))).
  exists sh, l2, (set_heap (<[l2 := Py.slice_to count sh]> (heap s2)) s2).
  assert (heap s2 !! l2 = None) as Hfresh2 by apply not_elem_of_dom, is_fresh.
  assert (heap s2 = <[l1 := sh]> (heap s)) as Hheap2'.
  { rewrite Hheap2. simpl. by rewrite insert_insert_eq. }
  split; [|split; [done|split; [|split; [|split]]]].
  - unfold select_random_questions, bind at 1, deref at 1. fold items.
    apply Z.ltb_ge in Hle. rewrite Hle.
    unfold bind at 1. rewrite Hcopy.
    unfold bind at 1. rewrite Hsh.
    assert (heap s2 !! l1 = Some sh) as Hl1 by (by rewrite Hheap2', lookup_insert_eq).
    unfold bind, deref, alloc. by rewrite Hl1.
  - simpl. by rewrite lookup_insert_eq.
  - rewrite Hheap2' in Hfresh2.
    destruct (decide (l1 = l2)) as [<-|Hne]; [done|].
    by rewrite lookup_insert_ne in Hfresh2.
  - intros l0 [v Hv]. simpl. rewrite Hheap2'.
    assert (l0 <> l1) by congruence.
    assert (l0 <> l2).
    { intros ->. rewrite Hheap2', lookup_insert_ne in Hfresh2 by done. congruence. }
    by rewrite !lookup_insert_ne.
  - destruct Hworld as (?&?&?&?&?). simpl in *. by repeat split.
Qed.

End Heap.

(** ** Dicts *)

Section Dicts.

Implicit Types (d q : Dict.t) (k : string).

Lemma mem_In k (ks : list string) : Str.mem k ks = true <-> In k ks.
Proof.
  unfold Str.mem. rewrite existsb_exists. split.
  - intros (x & Hx & ->%String.eqb_eq). done.
  - intros H. exists k. by rewrite String.eqb_refl.
Qed.

Lemma mem_filter_ne k k' (ks : list string) :
  k <> k' ->
  Str.mem k (List.filter (fun x => negb (String.eqb k' x)) ks) = Str.mem k ks.
Proof.
  intros Hne. apply eq_true_iff_eq. rewrite !mem_In, filter_In.
  split; [tauto|]. intros H. split; [done|].
  apply negb_true_iff, String.eqb_neq. congruence.
Qed.

(** [k in d] holds exactly when [d[k]] is there. *)
Lemma contains_get k d : Dict.contains k d = true <-> is_Some (Dict.get k d).
Proof.
  unfold Dict.contains. induction d as [|[k' v] d IH]; simpl.
  - split; [done | by intros [? ?]].
  - destruct (String.eqb_spec k k') as [->|Hne]; simpl.
    + split; [|done]. intros _. destruct (Dict.get k' d); eauto.
    + rewrite mem_filter_ne by done. rewrite IH.
      by destruct (Dict.get k d).
Qed.

Lemma contains_false_get k d : Dict.contains k d = false <-> Dict.get k d = None.
Proof.
  rewrite <-not_true_iff_false, contains_get, eq_None_not_Some. done.
Qed.

End Dicts.

(** ** The validator *)

Section Validator.

Implicit Types (q : Dict.t) (i : Z) (s : state).

(** The inner loop reports the first required field that is missing. *)
Lemma check_fields_spec i q fields s :
  check_fields i (VDict q) fields s =
    match List.find (fun field => negb (Dict.contains field q)) fields with
    | None => (Ok tt, s)
    | Some field => (Raise (ValueError (MissingField (i + 1) field)), s)
    end.
Proof.
  induction fields as [|field rest IH]; [done|].
  cbn [check_fields List.find]. unfold bind, Py.contains, ret.
  destruct (Dict.contains field q); simpl; [exact IH | done].
Qed.

(** The body of the outer loop never changes the state, and its outcome
    is [verdict]. *)
Lemma validate_question_verdict i q s :
  validate_question i (VDict q) s = (verdict i q, s).
Proof.
  unfold validate_question, verdict, bind at 1. rewrite check_fields_spec.
  destruct (List.find _ required_fields); [done|].
  unfold bind at 1, Py.getitem at 1.
  destruct (Dict.get "options" q) as [[| | | | | |d]|]; try done.
  unfold ret at 1. destruct (Z.ltb (Dict.len d) 2); [done|].
  unfold bind at 1, Py.getitem.
  destruct (Dict.get "answer" q) as [[| | | |a| |]|]; try done.
  unfold ret at 1, bind, Py.dict_contains, ret.
  by destruct (Dict.contains a d).
Qed.

(** [verdict] accepts exactly the valid records. *)
Lemma verdict_Ok i q : verdict i q = Ok tt <-> valid_record q.
Proof.
  unfold verdict.
  destruct (List.find _ required_fields) as [field|] eqn:Hfind.
  { apply find_some in Hfind as [Hin Hmiss].
    apply negb_true_iff, contains_false_get in Hmiss.
    split; [done|]. intros (Hall & _).
    destruct (Hall field Hin) as [? ?]. congruence. }
  assert (has_all_fields q) as Hall.
  { intros field Hin. apply contains_get.
    by apply (find_none _ _ Hfind) in Hin as ->%negb_false_iff. }
  destruct (Dict.get "options" q) as [options|] eqn:Hopt; cycle 1.
  { split; [done|]. intros (_ & (d & ? & _) & _). congruence. }
  destruct options as [| | | | | |d];
    try (split; [done|]; intros (_ & (d' & ? & _) & _); congruence).
  destruct (Z.ltb_spec (Dict.len d) 2) as [Hlt|Hge].
  { split; [done|]. intros (_ & (d' & Hd' & ?) & _).
    assert (d' = d) as -> by congruence. lia. }
  destruct (Dict.get "answer" q) as [answer|] eqn:Hans; cycle 1.
  { split; [done|]. intros (_ & _ & (d' & a' & _ & ? & _)). congruence. }
  destruct answer as [| | | |a| |];
    try (split; [done|]; intros (_ & _ & (d' & a' & _ & ? & _)); congruence).
  destruct (Dict.contains a d) eqn:Hin.
  - split; [|done]. intros _. split; [done|]. split; [by exists d|].
    exists d, a. split; [done|]. split; [done|]. by apply mem_In.
  - split; [done|]. intros (_ & _ & (d' & a' & Hd' & Ha' & Hin')).
    assert (d' = d) as -> by congruence. assert (a' = a) as -> by congruence.
    apply mem_In in Hin'. unfold Dict.contains in Hin. congruence.
Qed.

(** On an invalid record the error names the position and a defect the
    record has, unless the answer of the record cannot be hashed: then the
    membership test itself fails with a [TypeError]. *)
Lemma verdict_Raise i q e :
  verdict i q = Raise e ->
  describes e (i + 1) q
  \/ (exists answer, Dict.get "answer" q = Some answer /\
         hashable answer = false /\ e = TypeError answer).
Proof.
  intros Hv. assert (~ valid_record q) as Hinvalid.
  { intros Hq%(verdict_Ok i). congruence. }
  revert Hv. unfold verdict.
  destruct (List.find _ required_fields) as [field|] eqn:Hfind.
  { apply find_some in Hfind as [Hin Hmiss].
    apply negb_true_iff, contains_false_get in Hmiss.
    intros [= <-]. left. left. by exists field. }
  assert (has_all_fields q) as Hall.
  { intros field Hin. apply contains_get.
    by apply (find_none _ _ Hfind) in Hin as ->%negb_false_iff. }
  destruct (Hall "options") as [options Hopt]; [simpl; tauto|].
  destruct (Hall "answer") as [answer Hans]; [simpl; tauto|].
  rewrite Hopt.
  assert (forall d, options = VDict d -> 2 <= Dict.len d -> ~ answer_in_options q) as Hno.
  { intros d -> Hlen Hin. apply Hinvalid. split; [done|]. split; [by exists d|done]. }
  destruct options as [| | | | | |d];
    try (intros [= <-]; left; right; left; split; [done|];
         intros (d' & ? & _); congruence).
  destruct (Z.ltb_spec (Dict.len d) 2) as [Hlt|Hge].
  { intros [= <-]. left. right. left. split; [done|].
    intros (d' & Hd' & ?). assert (d' = d) as -> by congruence. lia. }
  rewrite Hans. specialize (Hno d eq_refl Hge).
  destruct answer as [| | | |a|xs|xs];
    try (intros [= <-]; left; right; right; eexists; by repeat split).
  - destruct (Dict.contains a d); [done|].
    intros [= <-]. left. right. right. eexists. by repeat split.
  - intros [= <-]. right. eexists. by repeat split.
  - intros [= <-]. right. eexists. by repeat split.
Qed.

End Validator.

(** ** The validator on a list *)

Section ValidatorList.

Implicit Types (q : Dict.t) (i : Z) (s : state).

Lemma validate_from_valid records i s :
  Forall valid_record records ->
  validate_from i (List.map VDict records) s = (Ok tt, s).
Proof.
  intros Hall. revert i. induction Hall as [|q records Hq _ IH]; intros i; [done|].
  cbn [List.map validate_from]. unfold bind.
  rewrite validate_question_verdict. apply (verdict_Ok i) in Hq as ->. apply IH.
Qed.

(** Fail-fast: the outcome is decided at the first invalid record, whatever
    comes after it. *)
Lemma validate_from_first_invalid pre q (later : list value) i s e :
  Forall valid_record pre ->
  verdict (i + Z.of_nat (length pre)) q = Raise e ->
  validate_from i (List.map VDict pre ++ VDict q :: later) s = (Raise e, s).
Proof.
  intros Hall. revert i. induction Hall as [|p pre Hp _ IH]; intros i Hv.
  - cbn [List.map app validate_from length] in *. unfold bind. rewrite validate_question_verdict.
    replace (i + Z.of_nat 0) with i in Hv by lia. by rewrite Hv.
  - cbn [List.map app validate_from]. unfold bind.
    rewrite validate_question_verdict. apply (verdict_Ok i) in Hp as ->.
    apply IH. rewrite <-Hv. f_equal. simpl length. lia.
Qed.

Lemma valid_record_dec q : valid_record q \/ ~ valid_record q.
Proof.
  destruct (verdict 0 q) as [[]|e] eqn:Hv.
  - left. by apply (verdict_Ok 0).
  - right. intros Hq%(verdict_Ok 0). congruence.
Qed.

Lemma all_valid_dec records :
  Forall valid_record records \/ ~ Forall valid_record records.
Proof.
  induction records as [|q records [IH|IH]].
  - by left.
  - destruct (valid_record_dec q) as [Hq|Hq]; [left; by constructor|].
    right. by intros [? ?]%Forall_cons.
  - right. by intros [? ?]%Forall_cons.
Qed.

(** A list with an invalid record has a first one. *)
Lemma first_invalid records :
  ~ Forall valid_record records ->
  exists pre q post,
    records = pre ++ q :: post /\ Forall valid_record pre /\ ~ valid_record q.
Proof.
  induction records as [|q records IH]; intros Hnot.
  - by destruct Hnot.
  - destruct (valid_record_dec q) as [Hq|Hq].
    + destruct IH as (pre & q' & post & -> & Hpre & Hq').
      { intros Hall. apply Hnot. by constructor. }
      exists (q :: pre), q', post. repeat split; [by constructor | done].
    + exists [], q, records. by repeat split.
Qed.

(** The validator, in full: it accepts exactly the lists of valid records
    and leaves the state alone; otherwise it raises at the first invalid
    record, whatever follows, and the error names that position and a
    defect of that record, except when the record's answer is unhashable. *)
Lemma validate_questions_spec records s :
  (validate_questions (List.map VDict records) s = (Ok tt, s)
   <-> Forall valid_record records)
  /\ (forall pre q post (later : list value),
        records = pre ++ q :: post ->
        Forall valid_record pre -> ~ valid_record q ->
        exists e,
          validate_questions (List.map VDict pre ++ VDict q :: later) s = (Raise e, s) /\
          (describes e (Z.of_nat (length pre) + 1) q
           \/ exists answer, Dict.get "answer" q = Some answer /\
                hashable answer = false /\ e = TypeError answer)).
Proof.
  assert (forall pre q (later : list value),
    Forall valid_record pre -> ~ valid_record q ->
    exists e,
      validate_questions (List.map VDict pre ++ VDict q :: later) s = (Raise e, s) /\
      (describes e (Z.of_nat (length pre) + 1) q
       \/ exists answer, Dict.get "answer" q = Some answer /\
            hashable answer = false /\ e = TypeError answer)) as Hraise.
  { intros pre q later Hpre Hq.
    destruct (verdict (0 + Z.of_nat (length pre)) q) as [[]|e] eqn:Hv.
    { by apply verdict_Ok in Hv. }
    exists e. split.
    - by apply validate_from_first_invalid.
    - apply verdict_Raise in Hv. by rewrite Z.add_0_l in Hv. }
  split.
  - split; [|apply validate_from_valid].
    intros Hok. destruct (all_valid_dec records) as [Hall|Hnot]; [done|].
    destruct (first_invalid records Hnot) as (pre & q & post & -> & Hpre & Hq).
    destruct (Hraise pre q (List.map VDict post) Hpre Hq) as (e & He & _).
    rewrite List.map_app in Hok. cbn [List.map] in Hok.
    rewrite He in Hok. discriminate.
  - intros pre q post later _. apply Hraise.
Qed.

End ValidatorList.

(** ** Reading an answer *)

Section AwaitInput.

Implicit Types (s : state) (valid : list string) (lines rejected : list string).

(** One turn of the loop at the end of the input. *)
Lemma answer_loop_eof valid s :
  stdin s = [] ->
  answer_loop valid [] s =
    (Raise EOFError, set_stdout (stdout s ++ [Prompt valid]) s).
Proof.
  intros Hin. cbn [answer_loop]. unfold bind, input, bind, print. simpl.
  by rewrite Hin.
Qed.

(** One turn of the loop on a line: return it, or complain and go on. *)
Lemma answer_loop_step valid line rest s :
  stdin s = line :: rest ->
  answer_loop valid (line :: rest) s =
    let s1 := set_stdin rest (set_stdout (stdout s ++ [Prompt valid]) s) in
    if Str.mem (Str.normalize line) valid then (Ok (Str.normalize line), s1)
    else answer_loop valid rest
           (set_stdout (stdout s1 ++ [PrintInvalid valid]) s1).
Proof.
  intros Hin. cbn [answer_loop]. unfold bind at 1, input, bind at 1, print at 1.
  simpl. rewrite Hin.
  by destruct (Str.mem (Str.normalize line) valid).
Qed.

(** The loop reads on past every rejected line.  It ends in one of two
    ways: at the first line that normalises to a valid option, which it
    returns, or at the end of the input. *)
Lemma answer_loop_spec valid lines s :
  stdin s = lines ->
  exists rejected,
    Forall (rejected_by valid) rejected /\
    ((lines = rejected /\
      answer_loop valid lines s =
        (Raise EOFError, set_stdin [] (prompted valid rejected s)))
     \/ (exists line rest,
           lines = rejected ++ line :: rest /\
           Str.mem (Str.normalize line) valid = true /\
           answer_loop valid lines s =
             (Ok (Str.normalize line), set_stdin rest (prompted valid rejected s)))).
Proof.
  revert s. induction lines as [|line rest IH]; intros s Hin.
  - exists []. split; [done|]. left. split; [done|].
    rewrite answer_loop_eof by done.
    destruct s; simpl in *; by subst.
  - rewrite answer_loop_step by done. cbv zeta.
    destruct (Str.mem (Str.normalize line) valid) eqn:Hmem.
    + exists []. split; [done|]. right. exists line, rest. by repeat split.
    + match goal with |- context [answer_loop valid rest ?s1] =>
        destruct (IH s1) as (rejected & Hrej & Hcases); [done|] end.
      exists (line :: rejected). split; [by constructor|].
      assert (forall tl,
        set_stdin tl (prompted valid rejected
          (set_stdout
             (stdout (set_stdin rest (set_stdout (stdout s ++ [Prompt valid]) s))
                ++ [PrintInvalid valid])
             (set_stdin rest (set_stdout (stdout s ++ [Prompt valid]) s))))
        = set_stdin tl (prompted valid (line :: rejected) s)) as Hstate.
      { intros tl. unfold prompted, set_stdin, set_stdout. simpl.
        by rewrite <-!app_assoc. }
      destruct Hcases as [[-> Hrun]|(line' & rest' & -> & Hok & Hrun)].
      * left. split; [done|]. by rewrite Hrun, Hstate.
      * right. exists line', rest'. repeat split; [done|]. by rewrite Hrun, Hstate.
Qed.

(** On a question whose options are the dict [d], [get_user_answer] is the
    loop over the keys of [d]. *)
Lemma get_user_answer_loop q d s :
  Dict.get "options" q = Some (VDict d) ->
  get_user_answer (VDict q) s = answer_loop (Dict.keys d) (stdin s) s.
Proof.
  intros Hopt. unfold get_user_answer, bind, Py.getitem. by rewrite Hopt.
Qed.

End AwaitInput.

(** ** One question of the session *)

Section Turn.

Implicit Types (s : state) (q : Dict.t) (d : Dict.t).

Lemma print_options_spec (items : list (string * value)) s :
  print_options items s =
    (Ok tt, set_stdout
              (stdout s ++ List.map (fun kv => PrintOption (fst kv) (snd kv)) items) s).
Proof.
  revert s. induction items as [|[k v] items IH]; intros s.
  - simpl. unfold ret. rewrite app_nil_r. by destruct s.
  - cbn [print_options]. unfold bind, print. rewrite IH.
    unfold set_stdout. simpl. by rewrite <-app_assoc.
Qed.

Lemma display_question_spec q text d n s :
  Dict.get "q" q = Some text ->
  Dict.get "options" q = Some (VDict d) ->
  display_question (VDict q) n s =
    (Ok tt, set_stdout (stdout s ++ shown text d n) s).
Proof.
  intros Hq Hopt. unfold display_question, bind, print, Py.getitem.
  rewrite Hq, Hopt. unfold ret, Py.items, ret. rewrite print_options_spec.
  unfold shown, set_stdout. simpl. by rewrite <-!app_assoc.
Qed.

(** The fields of a valid record. *)
Lemma valid_record_fields q :
  valid_record q ->
  exists text d a e,
    Dict.get "q" q = Some text /\
    Dict.get "options" q = Some (VDict d) /\
    Dict.get "answer" q = Some (VStr a) /\
    Dict.get "answer_description" q = Some e /\
    In a (Dict.keys d).
Proof.
  intros (Hall & _ & d & a & Hopt & Hans & Hin).
  destruct (Hall "q") as [text Hq]; [simpl; tauto|].
  destruct (Hall "answer_description") as [e He]; [simpl; tauto|].
  by exists text, d, a, e.
Qed.

(** One iteration of the loop of [run_quiz]: the question is shown, the
    answer is awaited, and only after the verdict and the explanation are
    printed does the loop go on. *)
Lemma run_quiz_from_cons i c q qs s text d a e :
  Dict.get "q" q = Some text ->
  Dict.get "options" q = Some (VDict d) ->
  Dict.get "answer" q = Some (VStr a) ->
  Dict.get "answer_description" q = Some e ->
  run_quiz_from i c (VDict q :: qs) s =
    let s1 := set_stdout (stdout s ++ shown text d (i + 1)) s in
    match answer_loop (Dict.keys d) (stdin s1) s1 with
    | (Ok user_answer, s2) =>
        run_quiz_from (i + 1) (if String.eqb user_answer a then c + 1 else c) qs
          (set_stdout (stdout s2 ++ feedback a e user_answer) s2)
    | (Raise ex, s2) => (Raise ex, s2)
    end.
Proof.
  intros Hq Hopt Hans He. cbn [run_quiz_from]. unfold bind at 1.
  rewrite (display_question_spec q text d) by done. cbv zeta.
  unfold bind at 1. rewrite (get_user_answer_loop q d) by done.
  destruct (answer_loop _ _ _) as [[user_answer|ex] s2]; [|done].
  unfold bind at 1, Py.getitem at 1. rewrite Hans. unfold ret at 1.
  unfold Py.str_eq, feedback.
  destruct (String.eqb user_answer a).
  - unfold bind, print, ret, Py.getitem. rewrite He.
    unfold set_stdout. simpl. by rewrite <-app_assoc.
  - unfold bind, print, ret, Py.getitem. rewrite Hans, He.
    unfold set_stdout. simpl. by rewrite <-app_assoc.
Qed.

End Turn.

(** ** The session *)

Section Session.

Implicit Types (s : state) (q : Dict.t) (records : list Dict.t).

Lemma next_answer_rejected valid (rejected : list string) :
  Forall (rejected_by valid) rejected -> next_answer valid rejected = None.
Proof.
  induction 1 as [|line rejected Hline _ IH]; [done|].
  simpl. unfold rejected_by in Hline. by rewrite Hline.
Qed.

Lemma next_answer_accepted valid (rejected : list string) line rest :
  Forall (rejected_by valid) rejected ->
  Str.mem (Str.normalize line) valid = true ->
  next_answer valid (rejected ++ line :: rest) = Some (Str.normalize line, rest).
Proof.
  intros Hrej Hok. induction Hrej as [|l rejected Hl _ IH]; simpl.
  - by rewrite Hok.
  - unfold rejected_by in Hl. by rewrite Hl.
Qed.

Lemma filter_feedback_shown text d n :
  List.filter is_feedback (shown text d n) = [].
Proof.
  unfold shown. simpl. induction (Dict.items d) as [|kv items IH]; [done|].
  by simpl.
Qed.

Lemma filter_feedback_reprompts valid (rejected : list string) :
  List.filter is_feedback (reprompts valid rejected) = [].
Proof. induction rejected as [|l rejected IH]; [done|]. by simpl. Qed.

Lemma filter_feedback_feedback a e user_answer :
  List.filter is_feedback (feedback a e user_answer) = feedback a e user_answer.
Proof. unfold feedback. by destruct (String.eqb user_answer a). Qed.

(** The session on valid records, against the script on standard input:
    it ends normally exactly when the script answers every question, with
    the tally of the matching answers; otherwise it stops at the end of the
    input.  Either way every answer it took was followed by its verdict and
    then by the explanation, and no list object was touched. *)
Lemma run_quiz_from_spec records :
  Forall valid_record records ->
  forall i c s,
    let answers := script_answers records (stdin s) in
    exists out s',
      run_quiz_from i c (List.map VDict records) s =
        (if Nat.eqb (length answers) (length records)
         then Ok (c + tally records answers) else Raise EOFError, s') /\
      stdout s' = stdout s ++ out /\
      List.filter is_feedback out = expected_feedback records answers /\
      heap s' = heap s /\ opened s' = opened s.
Proof.
  induction 1 as [|q records Hq _ IH]; intros i c s answers.
  - exists [], s. simpl. unfold ret. rewrite Z.add_0_r, app_nil_r. by repeat split.
  - destruct (valid_record_fields q Hq) as (text & d & a & e & Htext & Hopt & Hans & He & _).
    cbn [List.map]. rewrite (run_quiz_from_cons i c q _ s text d a e) by done.
    cbv zeta. subst answers. cbn [script_answers].
    unfold options_of. rewrite Hopt.
    set (s1 := set_stdout (stdout s ++ shown text d (i + 1)) s).
    destruct (answer_loop_spec (Dict.keys d) (stdin s1) s1 eq_refl)
      as (rejected & Hrej & [[Hlines Hrun]|(line & rest & Hlines & Hok & Hrun)]).
    + rewrite Hrun. simpl in Hlines. rewrite Hlines.
      rewrite next_answer_rejected by done.
      eexists. eexists. split; [done|]. simpl.
      split; [by rewrite <-app_assoc|]. split; [|done].
      rewrite !List.filter_app, filter_feedback_shown, filter_feedback_reprompts. done.
    + rewrite Hrun. simpl in Hlines. rewrite Hlines.
      rewrite next_answer_accepted by done.
      match goal with |- context [run_quiz_from ?i' ?c' _ ?s3] =>
        destruct (IH i' c' s3) as (out & s' & Hrest & Hout & Hfb & Hheap & Hopened);
        rewrite Hrest; clear Hrest;
        change (stdin s3) with rest in *
      end.
      simpl in Hout, Hheap, Hopened.
      exists (shown text d (i + 1) ++ reprompts (Dict.keys d) rejected
              ++ [Prompt (Dict.keys d)] ++ feedback a e (Str.normalize line) ++ out), s'.
      split; [|split; [|split; [|done]]].
      * cbn [length tally Nat.eqb]. unfold answer_key. rewrite Hans.
        destruct (Nat.eqb _ _); [|done].
        destruct (String.eqb (Str.normalize line) a); do 2 f_equal; lia.
      * rewrite Hout. by rewrite <-!app_assoc.
      * rewrite !List.filter_app, filter_feedback_shown, filter_feedback_reprompts,
          filter_feedback_feedback, Hfb. cbn [expected_feedback].
        unfold answer_key, explanation. rewrite Hans, He. done.
Qed.

End Session.

(** ** Case folding *)

Section CaseFolding.

Lemma lower_char_not_upper c : Str.isupper (Str.lower_char c) = false.
Proof. by destruct c as [[] [] [] [] [] [] [] []]. Qed.

(** A normalised line never starts with an upper-case letter. *)
Lemma normalize_not_upper line c rest :
  Str.normalize line = String c rest -> Str.isupper c = false.
Proof.
  unfold Str.normalize. destruct (Str.strip line) as [|c' s']; [done|].
  simpl. intros [= <- _]. apply lower_char_not_upper.
Qed.

(** So a key that starts with one is never what the runner reads. *)
Lemma upper_key_rejected valid (line : string) :
  Forall (fun key => exists c rest, key = String c rest /\ Str.isupper c = true) valid ->
  rejected_by valid line.
Proof.
  intros Hkeys. unfold rejected_by. apply not_true_iff_false.
  intros Hin%mem_In. rewrite List.Forall_forall in Hkeys.
  destruct (Hkeys _ Hin) as (c & rest & Heq & Hup).
  apply normalize_not_upper in Heq. congruence.
Qed.

Lemma next_answer_upper_keys valid (lines : list string) :
  Forall (fun key => exists c rest, key = String c rest /\ Str.isupper c = true) valid ->
  next_answer valid lines = None.
Proof.
  intros Hkeys. apply next_answer_rejected.
  apply Forall_forall. intros line _. by apply upper_key_rejected.
Qed.

End CaseFolding.

(** ** The pipeline *)

Section Pipeline.

Implicit Types (s : state) (filename : string) (count : Z).

(** A count below one ends the run at once. *)
Lemma main_bad_count filename count s :
  count < 1 ->
  main filename count s =
    (Raise (SystemExit 1), set_stdout (stdout s ++ [PrintBadCount]) s).
Proof.
  intros Hlt%Z.ltb_lt. unfold main, bind at 1. by rewrite Hlt.
Qed.

(** Loading a document that is a list. *)
Lemma load_questions_list filename items s :
  files s filename = Document (VList items) ->
  let l := fresh (dom (heap s)) in
  load_questions filename s =
    (Ok l, set_heap (<[l := items]> (heap s)) (set_opened (opened s ++ [filename]) s)).
Proof.
  intros Hfile. unfold load_questions, try_except, bind, Py.open_and_load.
  by rewrite Hfile.
Qed.

(** The run on an empty list of questions, for a count of at least one:
    everything up to the session goes through, the session asks nothing,
    and the percentage divides by zero. *)
Lemma main_empty filename count s :
  files s filename = Document (VList []) ->
  1 <= count ->
  let l := fresh (dom (heap s)) in
  main filename count s =
    (Raise (SystemExit 1),
     set_stdout
       (stdout s ++ [PrintWarning count 0; PrintProceeding 0; PrintStarting 0;
                     PrintUnexpected ZeroDivisionError])
       (set_heap (<[l := []]> (heap s)) (set_opened (opened s ++ [filename]) s))).
Proof.
  intros Hfile Hcount l.
  assert (Z.ltb count 1 = false) as Hc1 by (apply Z.ltb_ge; lia).
  assert (Z.ltb 0 count = true) as Hc0 by (apply Z.ltb_lt; lia).
  unfold main, bind at 1. rewrite Hc1. unfold ret at 1.
  unfold try_except, bind at 1. rewrite (load_questions_list filename []) by done.
  fold l. unfold bind at 1, deref at 1. simpl heap. rewrite lookup_insert_eq.
  simpl default. unfold bind at 1, validate_questions at 1. simpl validate_from.
  unfold ret at 1. unfold Py.len at 1. change (Z.of_nat (length [])) with 0. rewrite Hc0.
  unfold bind, print, ret, deref, Py.len, Py.truediv. simpl.
  rewrite lookup_insert_eq. simpl.
  unfold set_stdout, set_heap, set_opened. simpl. by rewrite <-!app_assoc.
Qed.

(** The session and the score on a non-empty list of valid records: the
    division is safe, and the only way not to reach the score is the end
    of the input. *)
Lemma session_and_score sel (selected : list Dict.t) s :
  heap s !! sel = Some (List.map VDict selected) ->
  Forall valid_record selected ->
  selected <> [] ->
  let answers := script_answers selected (stdin s) in
  let n := Z.of_nat (length selected) in
  let complete := Nat.eqb (length answers) (length selected) in
  exists out s',
    (selected0 <- deref sel ;;
     print (PrintStarting (Py.len selected0)) ;;
     correct_answers <- run_quiz selected0 ;;
     ratio <- Py.truediv correct_answers (Py.len selected0) ;;
     print (PrintScore correct_answers (Py.len selected0) (ratio * Qmake 100 1)%Q)) s
    = (if complete then Ok tt else Raise EOFError, s') /\
    stdout s' =
      stdout s ++ PrintStarting n :: out ++
        (if complete
         then [PrintScore (tally selected answers) n
                 (Qmake (tally selected answers) 1 / Qmake n 1 * Qmake 100 1)%Q]
         else []) /\
    List.filter is_feedback out = expected_feedback selected answers.
Proof.
  intros Hsel Hvalid Hne answers n complete.
  destruct (run_quiz_from_spec selected Hvalid 0 0
              (set_stdout (stdout s ++ [PrintStarting n]) s))
    as (out & s' & Hrun & Hout & Hfb & _).
  simpl in Hrun, Hout. fold answers in Hrun, Hfb. fold complete in Hrun.
  assert (Z.eqb n 0 = false) as Hn.
  { apply Z.eqb_neq. subst n. destruct selected; [done|]. simpl length. lia. }
  unfold bind at 1, deref at 1. rewrite Hsel. simpl default.
  unfold Py.len. rewrite length_map. fold n.
  unfold bind at 1, print at 1. unfold bind at 1, run_quiz. rewrite Hrun.
  destruct complete.
  - eexists out, _. split; [|split; [|done]].
    + unfold bind, Py.truediv. rewrite Hn. unfold ret, print. reflexivity.
    + simpl. rewrite Hout. by rewrite <-!app_assoc.
  - exists out, s'. split; [done|]. split; [|done].
    rewrite Hout, app_nil_r. by rewrite <-app_assoc.
Qed.


End Pipeline.

(** * The claims *)

(** ** Selection *)

(** C4. For a list of at least two questions and a count between one and
    its length, [select_random_questions] returns a new list of exactly
    [count] records, taken from pairwise distinct positions of the original
    list (no position is used twice, so no record repeats unless the
    original list repeats it), each of them a record of the original. *)
Theorem select_random_questions_sample questions count s (items : list value) :
  heap s !! questions = Some items ->
  (2 <= length items)%nat ->
  1 <= count <= Z.of_nat (length items) ->
  exists l s' (selected : list value),
    select_random_questions questions count s = (Ok l, s') /\
    heap s' !! l = Some selected /\
    Z.of_nat (length selected) = count /\
    (forall q, q ∈ selected -> q ∈ items) /\
    (exists position : nat -> nat,
       Inj (=) (=) position /\
       forall i, (i < length selected)%nat ->
         is_Some (selected !! i) /\ selected !! i = items !! position i) /\
    (NoDup items -> NoDup selected).
Proof.
  intros Hq Hsize [Hlo Hhi].
  pose proof (select_sample questions count s) as Hsel.
  rewrite Hq in Hsel. simpl in Hsel.
  destruct Hsel as (shuffled & l & s' & Hrun & Hperm & Hl & _); [done|].
  assert (Py.slice_to count shuffled = take (Z.to_nat count) shuffled) as Hslice.
  { unfold Py.slice_to. rewrite (Permutation_length Hperm).
    destruct (Z.ltb_spec count 0); [lia|]. by rewrite Z.min_l by lia. }
  assert (length (take (Z.to_nat count) shuffled) = Z.to_nat count) as Hlen.
  { rewrite length_take, (Permutation_length Hperm). lia. }
  destruct (proj1 (Permutation_inj shuffled items) Hperm) as (_ & f & Hinj & Hf).
  exists l, s', (take (Z.to_nat count) shuffled).
  split; [done|]. split; [by rewrite <-Hslice|]. split; [lia|].
  split; [|split].
  - intros q Hin. rewrite <-Hperm. by apply (subseteq_take (Z.to_nat count)).
  - exists f. split; [done|]. intros i Hi. rewrite Hlen in Hi.
    rewrite lookup_take_lt by done. split; [|done].
    apply lookup_lt_is_Some_2. rewrite (Permutation_length Hperm). lia.
  - intros Hnodup. eapply sublist_NoDup; [|apply sublist_take].
    by rewrite Hperm.
Qed.

Lemma select_random_questions_sample_witness :
  exists l s' (selected : list value),
    select_random_questions 0%nat 2
      (Sample.with_list (List.map VDict Sample.questions) []) = (Ok l, s') /\
    heap s' !! l = Some selected /\
    Z.of_nat (length selected) = 2 /\
    (forall q, q ∈ selected -> q ∈ List.map VDict Sample.questions) /\
    (exists position : nat -> nat,
       Inj (=) (=) position /\
       forall i, (i < length selected)%nat ->
         is_Some (selected !! i) /\
         selected !! i = List.map VDict Sample.questions !! position i) /\
    (NoDup (List.map VDict Sample.questions) -> NoDup selected).
Proof.
  apply (select_random_questions_sample 0%nat 2
           (Sample.with_list (List.map VDict Sample.questions) [])
           (List.map VDict Sample.questions)).
  - reflexivity.
  - simpl. lia.
  - simpl. lia.
Defined.

(** C5. When the count exceeds the number of questions,
    [select_random_questions] prints the warning and returns, without
    raising, a new list holding the records of the original list, each once
    and in the original order. *)
Theorem select_random_questions_undersupply questions count s (items : list value) :
  heap s !! questions = Some items ->
  Z.of_nat (length items) < count ->
  exists l s',
    select_random_questions questions count s = (Ok l, s') /\
    heap s' !! l = Some items /\
    stdout s' = stdout s ++ [PrintWarning count (Z.of_nat (length items))].
Proof.
  intros Hq Hlt.
  pose proof (select_undersupply questions count s) as Hsel.
  rewrite Hq in Hsel. simpl in Hsel.
  destruct Hsel as (l & s' & Hrun & _ & Hheap & Hout & _); [done|].
  exists l, s'. split; [done|]. split; [|done].
  rewrite Hheap. apply lookup_insert_eq.
Qed.

Lemma select_random_questions_undersupply_witness :
  exists l s',
    select_random_questions 0%nat 5
      (Sample.with_list (List.map VDict Sample.questions) []) = (Ok l, s') /\
    heap s' !! l = Some (List.map VDict Sample.questions) /\
    stdout s' = [] ++ [PrintWarning 5 3].
Proof.
  apply (select_random_questions_undersupply 0%nat 5
           (Sample.with_list (List.map VDict Sample.questions) [])
           (List.map VDict Sample.questions)).
  - reflexivity.
  - simpl. lia.
Defined.

(** C9. [select_random_questions] does not change the list it is given:
    it returns a different list object, and the original, like every other
    list object, holds the same items in the same order afterwards. *)
Theorem select_random_questions_preserves_input questions count s (items : list value) :
  heap s !! questions = Some items ->
  exists l s',
    select_random_questions questions count s = (Ok l, s') /\
    l <> questions /\
    heap s' !! questions = Some items /\
    preserves_lists s s'.
Proof.
  intros Hq. destruct (Z.lt_ge_cases (Z.of_nat (length items)) count) as [Hlt|Hge].
  - pose proof (select_undersupply questions count s) as Hsel.
    rewrite Hq in Hsel. simpl in Hsel.
    destruct Hsel as (l & s' & Hrun & Hfresh & Hheap & _); [done|].
    assert (forall l0, is_Some (heap s !! l0) -> l0 <> l) as Hne.
    { intros l0 [v Hv] ->. congruence. }
    exists l, s'. split; [done|]. split; [|split].
    + intros ->. congruence.
    + rewrite Hheap, lookup_insert_ne; [done|]. intros ->. congruence.
    + intros l0 Hl0. rewrite Hheap, lookup_insert_ne; [done|].
      intros ->. by apply (Hne l0).
  - pose proof (select_sample questions count s) as Hsel.
    rewrite Hq in Hsel. simpl in Hsel.
    destruct Hsel as (shuffled & l & s' & Hrun & _ & _ & Hfresh & Hframe & _); [lia|].
    exists l, s'. split; [done|]. split; [|split; [|done]].
    + intros ->. congruence.
    + rewrite Hframe; [done|]. by rewrite Hq.
Qed.

Lemma select_random_questions_preserves_input_witness :
  exists l s',
    select_random_questions 0%nat 2
      (Sample.with_list (List.map VDict Sample.questions) []) = (Ok l, s') /\
    l <> 0%nat /\
    heap s' !! 0%nat = Some (List.map VDict Sample.questions) /\
    preserves_lists (Sample.with_list (List.map VDict Sample.questions) []) s'.
Proof.
  apply (select_random_questions_preserves_input 0%nat 2
           (Sample.with_list (List.map VDict Sample.questions) [])
           (List.map VDict Sample.questions)).
  reflexivity.
Defined.

(** ** Validation *)

(** C3. A record whose answer is a JSON array is invalid (its answer is no
    key of its options), yet the validator does not raise the [ValueError]
    that names position 1 and the invalid answer: hashing the answer fails
    first, with a [TypeError] that names neither. *)
Theorem validate_questions_unhashable_answer s :
  has_all_fields Sample.unhashable /\
  has_two_options Sample.unhashable /\
  ~ answer_in_options Sample.unhashable /\
  validate_questions [VDict Sample.unhashable] s =
    (Raise (TypeError (VList [VStr "b"])), s) /\
  ~ describes (TypeError (VList [VStr "b"])) 1 Sample.unhashable.
Proof.
  split; [|split; [|split; [|split]]].
  - intros field Hin. simpl in Hin.
    destruct Hin as [<-|[<-|[<-|[<-|[<-|[]]]]]]; by eexists.
  - eexists. split; [reflexivity|]. by vm_compute.
  - intros (d & a & _ & Ha & _). by vm_compute in Ha.
  - unfold validate_questions. cbn [validate_from]. unfold bind.
    by rewrite validate_question_verdict.
  - intros [(? & ? & _)|[(? & _)|(? & ? & _)]]; discriminate.
Qed.

(** C10. The validator accepts the empty list, so a file that holds an
    empty list passes loading and validation, and for a count of at least
    one the run goes on to announce and hold a session of zero questions. *)
Theorem validate_questions_accepts_empty filename count s :
  files s filename = Document (VList []) ->
  1 <= count ->
  validate_questions [] s = (Ok tt, s) /\
  (exists l s1, load_questions filename s = (Ok l, s1) /\ heap s1 !! l = Some []) /\
  run_quiz [] s = (Ok 0, s) /\
  (exists r s' out,
     main filename count s = (r, s') /\
     stdout s' =
       stdout s ++ [PrintWarning count 0; PrintProceeding 0; PrintStarting 0] ++ out).
Proof.
  intros Hfile Hcount. split; [done|]. split; [|split; [done|]].
  - eexists _, _. split; [by apply load_questions_list|].
    simpl. apply lookup_insert_eq.
  - eexists _, _, [_]. split; [by apply main_empty|]. done.
Qed.

Lemma validate_questions_accepts_empty_witness :
  validate_questions [] (Sample.run (VList []) []) = (Ok tt, Sample.run (VList []) []) /\
  (exists l s1,
     load_questions "quiz.q" (Sample.run (VList []) []) = (Ok l, s1) /\
     heap s1 !! l = Some []) /\
  run_quiz [] (Sample.run (VList []) []) = (Ok 0, Sample.run (VList []) []) /\
  (exists r s' out,
     main "quiz.q" 3 (Sample.run (VList []) []) = (r, s') /\
     stdout s' = [] ++ [PrintWarning 3 0; PrintProceeding 0; PrintStarting 0] ++ out).
Proof.
  apply (validate_questions_accepts_empty "quiz.q" 3 (Sample.run (VList []) [])).
  - reflexivity.
  - lia.
Defined.

(** ** The run *)

(** C1. With a count of at least one and a file that holds an empty list,
    the run reaches the score with no question administered: the session
    is announced with 0 questions and the percentage divides by zero, which
    ends the run with an "Unexpected error" and status 1. *)
Theorem main_divides_by_zero_on_empty_set filename count s :
  files s filename = Document (VList []) ->
  1 <= count ->
  exists s',
    main filename count s = (Raise (SystemExit 1), s') /\
    stdout s' =
      stdout s ++ [PrintWarning count 0; PrintProceeding 0; PrintStarting 0;
                   PrintUnexpected ZeroDivisionError].
Proof.
  intros Hfile Hcount. eexists. split; [by apply main_empty|]. done.
Qed.

Lemma main_divides_by_zero_on_empty_set_witness :
  exists s',
    main "quiz.q" 1 (Sample.run (VList []) ["a"]) = (Raise (SystemExit 1), s') /\
    stdout s' =
      [] ++ [PrintWarning 1 0; PrintProceeding 0; PrintStarting 0;
             PrintUnexpected ZeroDivisionError].
Proof.
  apply (main_divides_by_zero_on_empty_set "quiz.q" 1 (Sample.run (VList []) ["a"])).
  - reflexivity.
  - lia.
Defined.

(** C6. A count of zero or less ends the run with status 1 after the
    error message alone: no file is opened, no list is created, no line is
    read and no question is shown. *)
Theorem main_rejects_bad_count filename count s :
  count < 1 ->
  exists r s',
    main filename count s = (r, s') /\
    exit_status r = 1 /\
    opened s' = opened s /\
    heap s' = heap s /\
    stdin s' = stdin s /\
    stdout s' = stdout s ++ [PrintBadCount].
Proof.
  intros Hcount. eexists _, _. split; [by apply main_bad_count|]. done.
Qed.

Lemma main_rejects_bad_count_witness :
  exists r s',
    main "quiz.q" 0 (Sample.run (VList (List.map VDict Sample.questions)) ["a"]) = (r, s') /\
    exit_status r = 1 /\
    opened s' = [] /\
    heap s' = ∅ /\
    stdin s' = ["a"] /\
    stdout s' = [] ++ [PrintBadCount].
Proof.
  apply (main_rejects_bad_count "quiz.q" 0
           (Sample.run (VList (List.map VDict Sample.questions)) ["a"])).
  lia.
Defined.

(** ** The session *)

(** C7. While an answer is awaited, a line that does not normalise to a
    valid option key is answered by the list of valid keys and a new
    prompt, and the wait goes on with the next line.  The wait ends only
    with a line that normalises to a key of the question, which is then
    returned, or with the end of the input; a rejected line never ends it. *)
Theorem get_user_answer_reprompts q d s :
  Dict.get "options" q = Some (VDict d) ->
  (forall line rest,
     stdin s = line :: rest ->
     rejected_by (Dict.keys d) line ->
     get_user_answer (VDict q) s =
       get_user_answer (VDict q)
         (set_stdin rest
            (set_stdout (stdout s ++ [Prompt (Dict.keys d); PrintInvalid (Dict.keys d)]) s)))
  /\ exists rejected,
       Forall (rejected_by (Dict.keys d)) rejected /\
       ((stdin s = rejected /\
         get_user_answer (VDict q) s =
           (Raise EOFError, set_stdin [] (prompted (Dict.keys d) rejected s)))
        \/ (exists line rest,
              stdin s = rejected ++ line :: rest /\
              In (Str.normalize line) (Dict.keys d) /\
              get_user_answer (VDict q) s =
                (Ok (Str.normalize line),
                 set_stdin rest (prompted (Dict.keys d) rejected s)))).
Proof.
  intros Hopt. split.
  - intros line rest Hin Hrej.
    rewrite !(get_user_answer_loop q d) by done.
    rewrite Hin, answer_loop_step by done. cbv zeta.
    unfold rejected_by in Hrej. rewrite Hrej. simpl stdin. f_equal.
    unfold set_stdin, set_stdout. simpl. by rewrite <-app_assoc.
  - rewrite (get_user_answer_loop q d) by done.
    destruct (answer_loop_spec (Dict.keys d) (stdin s) s eq_refl)
      as (rejected & Hrej & [[Hlines Hrun]|(line & rest & Hlines & Hok & Hrun)]).
    + exists rejected. split; [done|]. left. by split.
    + exists rejected. split; [done|]. right. exists line, rest.
      split; [done|]. split; [by apply mem_In|done].
Qed.

Lemma get_user_answer_reprompts_witness :
  (forall line rest,
     stdin (Sample.run VNone ["x"; " B "]) = line :: rest ->
     rejected_by (Dict.keys [("a", VStr "3"); ("b", VStr "4")]) line ->
     get_user_answer (VDict Sample.sum) (Sample.run VNone ["x"; " B "]) =
       get_user_answer (VDict Sample.sum)
         (set_stdin rest
            (set_stdout
               (stdout (Sample.run VNone ["x"; " B "])
                ++ [Prompt (Dict.keys [("a", VStr "3"); ("b", VStr "4")]);
                    PrintInvalid (Dict.keys [("a", VStr "3"); ("b", VStr "4")])])
               (Sample.run VNone ["x"; " B "]))))
  /\ exists rejected,
       Forall (rejected_by (Dict.keys [("a", VStr "3"); ("b", VStr "4")])) rejected /\
       ((stdin (Sample.run VNone ["x"; " B "]) = rejected /\
         get_user_answer (VDict Sample.sum) (Sample.run VNone ["x"; " B "]) =
           (Raise EOFError,
            set_stdin [] (prompted (Dict.keys [("a", VStr "3"); ("b", VStr "4")]) rejected
                            (Sample.run VNone ["x"; " B "]))))
        \/ (exists line rest,
              stdin (Sample.run VNone ["x"; " B "]) = rejected ++ line :: rest /\
              In (Str.normalize line) (Dict.keys [("a", VStr "3"); ("b", VStr "4")]) /\
              get_user_answer (VDict Sample.sum) (Sample.run VNone ["x"; " B "]) =
                (Ok (Str.normalize line),
                 set_stdin rest
                   (prompted (Dict.keys [("a", VStr "3"); ("b", VStr "4")]) rejected
                      (Sample.run VNone ["x"; " B "]))))).
Proof.
  apply (get_user_answer_reprompts Sample.sum [("a", VStr "3"); ("b", VStr "4")]
           (Sample.run VNone ["x"; " B "])).
  reflexivity.
Defined.

(** C8. On validated questions the session prints, for every question it
    takes an answer to, the verdict and then the explanation of that
    question, whether the answer was the key or not; nothing else of that
    kind is printed. *)
Theorem run_quiz_always_explains records s :
  Forall valid_record records ->
  exists r s' out,
    run_quiz (List.map VDict records) s = (r, s') /\
    stdout s' = stdout s ++ out /\
    List.filter is_feedback out =
      expected_feedback records (script_answers records (stdin s)) /\
    (length (script_answers records (stdin s)) = length records ->
     r = Ok (tally records (script_answers records (stdin s)))) /\
    (length (script_answers records (stdin s)) <> length records ->
     r = Raise EOFError).
Proof.
  intros Hvalid.
  destruct (run_quiz_from_spec records Hvalid 0 0 s)
    as (out & s' & Hrun & Hout & Hfb & _).
  simpl in Hrun. eexists _, s', out. split; [exact Hrun|].
  split; [done|]. split; [done|]. split.
  - intros ->%Nat.eqb_eq. done.
  - intros ->%Nat.eqb_neq. done.
Qed.

Lemma run_quiz_always_explains_witness :
  exists r s' out,
    run_quiz (List.map VDict Sample.questions) (Sample.run VNone ["b"; "x"; " C "; "B"])
      = (r, s') /\
    stdout s' = stdout (Sample.run VNone ["b"; "x"; " C "; "B"]) ++ out /\
    List.filter is_feedback out =
      expected_feedback Sample.questions
        (script_answers Sample.questions (stdin (Sample.run VNone ["b"; "x"; " C "; "B"]))) /\
    (length (script_answers Sample.questions
               (stdin (Sample.run VNone ["b"; "x"; " C "; "B"])))
       = length Sample.questions ->
     r = Ok (tally Sample.questions
               (script_answers Sample.questions
                  (stdin (Sample.run VNone ["b"; "x"; " C "; "B"]))))) /\
    (length (script_answers Sample.questions
               (stdin (Sample.run VNone ["b"; "x"; " C "; "B"])))
       <> length Sample.questions ->
     r = Raise EOFError).
Proof.
  apply (run_quiz_always_explains Sample.questions
           (Sample.run VNone ["b"; "x"; " C "; "B"])).
  repeat constructor; apply (verdict_Ok 0); reflexivity.
Defined.

(** Scoring where every line is acceptable: with one line per question,
    each normalising to an option key of its question, the session ends
    with the number of lines that normalise to the answer key. *)
Lemma script_answers_one_line_each records (lines rest : list string) :
  Forall2 (fun q line =>
             Str.mem (Str.normalize line) (Dict.keys (options_of q)) = true)
          records lines ->
  script_answers records (lines ++ rest) = List.map Str.normalize lines.
Proof.
  induction 1 as [|q line records lines Hok _ IH]; [done|].
  simpl. rewrite Hok. by rewrite IH.
Qed.

Lemma run_quiz_scores_matching_lines records (lines rest : list string) s :
  Forall valid_record records ->
  Forall2 (fun q line =>
             Str.mem (Str.normalize line) (Dict.keys (options_of q)) = true)
          records lines ->
  stdin s = lines ++ rest ->
  fst (run_quiz (List.map VDict records) s)
    = Ok (tally records (List.map Str.normalize lines)).
Proof.
  intros Hvalid Hlines Hin.
  destruct (run_quiz_from_spec records Hvalid 0 0 s) as (out & s' & Hrun & _).
  simpl in Hrun. unfold run_quiz. rewrite Hrun, Hin.
  rewrite script_answers_one_line_each by done.
  rewrite length_map, <-(Forall2_length _ _ _ Hlines), Nat.eqb_refl. done.
Qed.

(** C2. A valid question whose option keys are upper-case cannot be
    answered: every line, whatever its case, is folded to lower case before
    it is compared with the keys, so every line is rejected, and on any
    script the session ends at the end of the input, without a tally. *)
Theorem run_quiz_upper_case_keys_unanswerable s :
  valid_record Sample.upper /\
  (forall line, rejected_by (Dict.keys (options_of Sample.upper)) line) /\
  fst (run_quiz [VDict Sample.upper] s) = Raise EOFError /\
  fst (run_quiz [VDict Sample.upper] (set_stdin ["A"; "a"; " A "] s)) = Raise EOFError.
Proof.
  assert (valid_record Sample.upper) as Hvalid by (by apply (verdict_Ok 0)).
  assert (Forall (fun key => exists c rest, key = String c rest /\ Str.isupper c = true)
            (Dict.keys (options_of Sample.upper))) as Hkeys.
  { repeat constructor; by eexists _, _. }
  assert (forall s0, fst (run_quiz [VDict Sample.upper] s0) = Raise EOFError) as Hrun.
  { intros s0.
    destruct (run_quiz_from_spec [Sample.upper] (Forall_cons_2 _ _ _ Hvalid (Forall_nil_2 _)) 0 0 s0)
      as (out & s' & Hrun & _).
    cbn [script_answers] in Hrun. rewrite next_answer_upper_keys in Hrun by done.
    unfold run_quiz. cbn [List.map] in Hrun. by rewrite Hrun. }
  split; [done|]. split; [|split; apply Hrun].
  intros line. by apply upper_key_rejected.
Qed.

(** * Further properties *)

(** ** Computations that leave the state alone *)

Section Stateless.

Context {A B : Type}.

Lemma stateless_ret (a : A) : stateless (ret a).
Proof. by exists (Ok a). Qed.

Lemma stateless_raise (e : exn) : stateless (@raise A e).
Proof. by exists (Raise e). Qed.

Lemma stateless_bind (c : M A) (k : A -> M B) :
  stateless c -> (forall a, stateless (k a)) -> stateless (bind c k).
Proof.
  intros [[a|e] Hc] Hk.
  - destruct (Hk a) as [r Hr]. exists r. intros s. unfold bind. by rewrite Hc, Hr.
  - exists (Raise e). intros s. unfold bind. by rewrite Hc.
Qed.

End Stateless.

Section StatelessValidator.

Lemma stateless_contains field q : stateless (Py.contains field q).
Proof. destruct q; simpl; apply stateless_ret || apply stateless_raise. Qed.

Lemma stateless_getitem q key : stateless (Py.getitem q key).
Proof.
  destruct q; simpl; try apply stateless_raise.
  destruct (Dict.get key items); apply stateless_ret || apply stateless_raise.
Qed.

Lemma stateless_dict_contains x d : stateless (Py.dict_contains x d).
Proof. destruct x; simpl; apply stateless_ret || apply stateless_raise. Qed.

Lemma stateless_check_fields i q fields : stateless (check_fields i q fields).
Proof.
  induction fields as [|field rest IH]; [apply stateless_ret|].
  cbn [check_fields]. apply stateless_bind; [apply stateless_contains|].
  intros []; [done | apply stateless_raise].
Qed.

Lemma stateless_validate_question i q : stateless (validate_question i q).
Proof.
  unfold validate_question.
  apply stateless_bind; [apply stateless_check_fields|]. intros _.
  apply stateless_bind; [apply stateless_getitem|]. intros options.
  destruct options; try apply stateless_raise.
  destruct (Z.ltb _ _); [apply stateless_raise|].
  apply stateless_bind; [apply stateless_getitem|]. intros answer.
  apply stateless_bind; [apply stateless_dict_contains|].
  intros []; apply stateless_ret || apply stateless_raise.
Qed.

Lemma stateless_validate_from questions : forall i, stateless (validate_from i questions).
Proof.
  induction questions as [|q rest IH]; intros i; [apply stateless_ret|].
  cbn [validate_from]. apply stateless_bind; [apply stateless_validate_question|].
  intros _. apply IH.
Qed.

End StatelessValidator.

(** ** Computations that stay inside the program *)

Section Contained.

Lemma contained_ret {A} (a : A) : contained (ret a).
Proof. intros s r s' [= <- <-]. by repeat split. Qed.

Lemma contained_raise {A} (e : exn) : is_Exception e = true -> contained (@raise A e).
Proof. intros He s r s' [= <- <-]. repeat split; try done. by intros ? [= <-]. Qed.

Lemma contained_bind {A B} (c : M A) (k : A -> M B) :
  contained c -> (forall a, contained (k a)) -> contained (bind c k).
Proof.
  intros Hc Hk s r s'. unfold bind.
  destruct (c s) as [[a|e] s1] eqn:Hcs.
  - intros Hks. destruct (Hc _ _ _ Hcs) as (Ho & Hf & _).
    destruct (Hk a _ _ _ Hks) as (Ho' & Hf' & He').
    repeat split; [congruence | congruence | done].
  - intros [= <- <-]. destruct (Hc _ _ _ Hcs) as (Ho & Hf & He).
    repeat split; [done | done |]. intros e' [= <-]. by apply He.
Qed.

Lemma contained_print (e : event) : contained (print e).
Proof. intros s r s' [= <- <-]. by repeat split. Qed.

Lemma contained_input (prompt : event) : contained (input prompt).
Proof.
  apply contained_bind; [apply contained_print|]. intros _ s r s'.
  destruct (stdin s); intros [= <- <-]; repeat split; try done.
  by intros ? [= <-].
Qed.

Lemma contained_deref l : contained (deref l).
Proof. intros s r s' [= <- <-]. by repeat split. Qed.

Lemma contained_alloc xs : contained (alloc xs).
Proof. intros s r s' [= <- <-]. by repeat split. Qed.

Lemma contained_store l xs : contained (store l xs).
Proof. intros s r s' [= <- <-]. by repeat split. Qed.

Lemma contained_randbelow n : contained (Py.randbelow n).
Proof. intros s r s' [= <- <-]. by repeat split. Qed.

Lemma contained_contains field q : contained (Py.contains field q).
Proof. destruct q; simpl; apply contained_ret || by apply contained_raise. Qed.

Lemma contained_getitem q key : contained (Py.getitem q key).
Proof.
  destruct q; simpl; try by apply contained_raise.
  destruct (Dict.get key items); apply contained_ret || by apply contained_raise.
Qed.

Lemma contained_dict_contains x d : contained (Py.dict_contains x d).
Proof. destruct x; simpl; apply contained_ret || by apply contained_raise. Qed.

Lemma contained_keys obj : contained (Py.keys obj).
Proof. destruct obj; simpl; apply contained_ret || by apply contained_raise. Qed.

Lemma contained_items obj : contained (Py.items obj).
Proof. destruct obj; simpl; apply contained_ret || by apply contained_raise. Qed.

Lemma contained_truediv a b : contained (Py.truediv a b).
Proof.
  unfold Py.truediv. destruct (Z.eqb b 0); apply contained_ret || by apply contained_raise.
Qed.

Lemma contained_check_fields i q fields : contained (check_fields i q fields).
Proof.
  induction fields as [|field rest IH]; [apply contained_ret|].
  cbn [check_fields]. apply contained_bind; [apply contained_contains|].
  intros []; [done | by apply contained_raise].
Qed.

Lemma contained_validate_question i q : contained (validate_question i q).
Proof.
  unfold validate_question.
  apply contained_bind; [apply contained_check_fields|]. intros _.
  apply contained_bind; [apply contained_getitem|]. intros options.
  destruct options; try by apply contained_raise.
  destruct (Z.ltb _ _); [by apply contained_raise|].
  apply contained_bind; [apply contained_getitem|]. intros answer.
  apply contained_bind; [apply contained_dict_contains|].
  intros []; apply contained_ret || by apply contained_raise.
Qed.

Lemma contained_validate_questions questions : contained (validate_questions questions).
Proof.
  unfold validate_questions. generalize 0.
  induction questions as [|q rest IH]; intros i; [apply contained_ret|].
  cbn [validate_from]. apply contained_bind; [apply contained_validate_question|].
  intros _. apply IH.
Qed.

Lemma contained_swap x i j : contained (Py.swap x i j).
Proof.
  unfold Py.swap. apply contained_bind; [apply contained_deref|]. intros xs.
  destruct (xs !! j), (xs !! i); apply contained_store || by apply contained_raise.
Qed.

Lemma contained_shuffle x : contained (Py.shuffle x).
Proof.
  unfold Py.shuffle. apply contained_bind; [apply contained_deref|]. intros xs.
  induction (length xs - 1)%nat as [|n IH]; [apply contained_ret|].
  cbn [Py.shuffle_down]. apply contained_bind; [apply contained_randbelow|]. intros j.
  apply contained_bind; [apply contained_swap|]. by intros _.
Qed.

Lemma contained_copy xs : contained (Py.copy xs).
Proof.
  unfold Py.copy. apply contained_bind; [apply contained_deref|].
  intros items. apply contained_alloc.
Qed.

Lemma contained_select_random_questions questions count :
  contained (select_random_questions questions count).
Proof.
  unfold select_random_questions.
  apply contained_bind; [apply contained_deref|]. intros items.
  destruct (Z.ltb _ _).
  - apply contained_bind; [apply contained_print|]. intros _. apply contained_copy.
  - apply contained_bind; [apply contained_copy|]. intros shuffled.
    apply contained_bind; [apply contained_shuffle|]. intros _.
    apply contained_bind; [apply contained_deref|]. intros items'.
    apply contained_alloc.
Qed.

Lemma contained_print_options items : contained (print_options items).
Proof.
  induction items as [|[k v] items IH]; [apply contained_ret|].
  cbn [print_options]. apply contained_bind; [apply contained_print|]. by intros _.
Qed.

Lemma contained_display_question question n : contained (display_question question n).
Proof.
  unfold display_question.
  apply contained_bind; [apply contained_print|]. intros _.
  apply contained_bind; [apply contained_getitem|]. intros text.
  apply contained_bind; [apply contained_print|]. intros _.
  apply contained_bind; [apply contained_print|]. intros _.
  apply contained_bind; [apply contained_getitem|]. intros options.
  apply contained_bind; [apply contained_items|]. intros items.
  apply contained_print_options.
Qed.

Lemma contained_answer_loop valid lines : contained (answer_loop valid lines).
Proof.
  induction lines as [|line rest IH]; cbn [answer_loop].
  - apply contained_bind; [apply contained_input|]. intros _. by apply contained_raise.
  - apply contained_bind; [apply contained_input|]. intros l.
    destruct (Str.mem _ _); [apply contained_ret|].
    apply contained_bind; [apply contained_print|]. by intros _.
Qed.

Lemma contained_get_user_answer question : contained (get_user_answer question).
Proof.
  unfold get_user_answer.
  apply contained_bind; [apply contained_getitem|]. intros options.
  apply contained_bind; [apply contained_keys|]. intros valid_options.
  intros s. apply contained_answer_loop.
Qed.

Lemma contained_run_quiz_from questions :
  forall i c, contained (run_quiz_from i c questions).
Proof.
  induction questions as [|q rest IH]; intros i c; [apply contained_ret|].
  cbn [run_quiz_from].
  apply contained_bind; [apply contained_display_question|]. intros _.
  apply contained_bind; [apply contained_get_user_answer|]. intros user_answer.
  apply contained_bind; [apply contained_getitem|]. intros answer.
  apply contained_bind.
  { destruct (Py.str_eq _ _).
    - apply contained_bind; [apply contained_print|]. intros _. apply contained_ret.
    - apply contained_bind; [apply contained_getitem|]. intros correct_option.
      apply contained_bind; [apply contained_print|]. intros _. apply contained_ret. }
  intros c'.
  apply contained_bind; [apply contained_getitem|]. intros explanation.
  apply contained_bind; [apply contained_print|]. intros _. apply IH.
Qed.

Lemma contained_run_quiz questions : contained (run_quiz questions).
Proof. apply contained_run_quiz_from. Qed.

End Contained.

(** ** The run, whatever the input *)

Section AnyRun.

Implicit Types (s : state) (filename : string) (count : Z).

(** The loader opens the file once, and either returns a list or exits
    with status 1. *)
Lemma load_questions_cases filename s :
  exists s1,
    opened s1 = opened s ++ [filename] /\ files s1 = files s /\
    ((exists l, load_questions filename s = (Ok l, s1))
     \/ load_questions filename s = (Raise (SystemExit 1), s1)).
Proof.
  unfold load_questions, try_except, bind, Py.open_and_load.
  destruct (files s filename) as [| | |v] eqn:Hfile;
    try (eexists; split; [|split; [|right; reflexivity]]; done).
  destruct v; try (eexists; split; [|split; [|right; reflexivity]]; done).
  eexists; split; [|split; [|left; eexists; reflexivity]]; done.
Qed.

(** What [main] does after a successful load stays inside the program. *)
Lemma contained_after_load count questions :
  contained
    (loaded <- deref questions ;;
     validate_questions loaded ;;
     selected_questions <-
       (if Z.ltb (Py.len loaded) count then
          print (PrintWarning count (Py.len loaded)) ;;
          print (PrintProceeding (Py.len loaded)) ;;
          ret questions
        else select_random_questions questions count) ;;
     selected <- deref selected_questions ;;
     print (PrintStarting (Py.len selected)) ;;
     correct_answers <- run_quiz selected ;;
     ratio <- Py.truediv correct_answers (Py.len selected) ;;
     print (PrintScore correct_answers (Py.len selected) (ratio * Qmake 100 1)%Q)).
Proof.
  apply contained_bind; [apply contained_deref|]. intros loaded.
  apply contained_bind; [apply contained_validate_questions|]. intros _.
  apply contained_bind.
  { destruct (Z.ltb _ _); [|apply contained_select_random_questions].
    apply contained_bind; [apply contained_print|]. intros _.
    apply contained_bind; [apply contained_print|]. intros _. apply contained_ret. }
  intros selected_questions.
  apply contained_bind; [apply contained_deref|]. intros selected.
  apply contained_bind; [apply contained_print|]. intros _.
  apply contained_bind; [apply contained_run_quiz|]. intros correct_answers.
  apply contained_bind; [apply contained_truediv|]. intros ratio.
  apply contained_print.
Qed.

(** Every run ends normally or with [SystemExit(1)], and opens the named
    file once if the count is at least one, and no file otherwise. *)
Lemma main_cases filename count s :
  (fst (main filename count s) = Ok tt
   \/ fst (main filename count s) = Raise (SystemExit 1))
  /\ opened (snd (main filename count s)) =
       (if Z.ltb count 1 then opened s else opened s ++ [filename])
  /\ files (snd (main filename count s)) = files s.
Proof.
  destruct (Z.ltb_spec count 1) as [Hlt|Hge].
  { rewrite main_bad_count by done. simpl. auto. }
  assert (Z.ltb count 1 = false) as Hc by (apply Z.ltb_ge; lia).
  destruct (main filename count s) as [r s'] eqn:Hmain. simpl. revert Hmain.
  unfold main, bind at 1. rewrite Hc. unfold ret at 1.
  unfold try_except, bind at 1.
  destruct (load_questions_cases filename s) as (s1 & Ho & Hf & [[l Hl]|Hl]); rewrite Hl.
  - pose proof (contained_after_load count l) as Hrest.
    match goal with |- context [bind (deref l) ?k] =>
      change (contained (bind (deref l) k)) in Hrest;
      destruct (bind (deref l) k s1) as [[[]|e] s2] eqn:Hrun end.
    + destruct (Hrest _ _ _ Hrun) as (Ho' & Hf' & _).
      intros [= <- <-]. split; [by left|]. split; congruence.
    + destruct (Hrest _ _ _ Hrun) as (Ho' & Hf' & He). rewrite (He e eq_refl).
      destruct (is_ValueError e); intros [= <- <-]; simpl;
        (split; [by right|]); split; congruence.
  - intros [= <- <-]. split; [by right|]. by split.
Qed.

End AnyRun.

(** ** Normal forms of lines *)

Section NormalForm.

Lemma lower_char_idem c : Str.lower_char (Str.lower_char c) = Str.lower_char c.
Proof. by destruct c as [[] [] [] [] [] [] [] []]. Qed.

Lemma isspace_lower_char c : Str.isspace (Str.lower_char c) = Str.isspace c.
Proof. by destruct c as [[] [] [] [] [] [] [] []]. Qed.

Lemma lower_idem s : Str.lower (Str.lower s) = Str.lower s.
Proof.
  induction s as [|c s IH]; [done|]. simpl. by rewrite lower_char_idem, IH.
Qed.

Lemma lstrip_lower s : Str.lstrip (Str.lower s) = Str.lower (Str.lstrip s).
Proof.
  induction s as [|c s IH]; [done|]. simpl. rewrite isspace_lower_char.
  by destruct (Str.isspace c).
Qed.

Lemma rstrip_lower s : Str.rstrip (Str.lower s) = Str.lower (Str.rstrip s).
Proof.
  induction s as [|c s IH]; [done|]. simpl. rewrite IH, isspace_lower_char.
  destruct (Str.rstrip s); simpl; [|done]. by destruct (Str.isspace c).
Qed.

Lemma rstrip_idem s : Str.rstrip (Str.rstrip s) = Str.rstrip s.
Proof.
  induction s as [|c s IH]; [done|]. simpl.
  destruct (Str.rstrip s) as [|c' t] eqn:Ht.
  - destruct (Str.isspace c) eqn:Hc; simpl; [done|]. by rewrite Hc.
  - cbn [Str.rstrip] in *. by rewrite IH.
Qed.

(** Stripping on the left does nothing to a string that stripping on the
    left produced, also after stripping it on the right. *)
Lemma lstrip_rstrip_lstrip s :
  Str.lstrip (Str.rstrip (Str.lstrip s)) = Str.rstrip (Str.lstrip s).
Proof.
  induction s as [|c s IH]; [done|]. cbn [Str.lstrip].
  destruct (Str.isspace c) eqn:Hc; [done|]. cbn [Str.rstrip].
  destruct (Str.rstrip s); rewrite ?Hc; simpl; by rewrite Hc.
Qed.

Lemma strip_idem s : Str.strip (Str.strip s) = Str.strip s.
Proof. unfold Str.strip. by rewrite lstrip_rstrip_lstrip, rstrip_idem. Qed.

Lemma strip_lower s : Str.strip (Str.lower s) = Str.lower (Str.strip s).
Proof. unfold Str.strip. by rewrite lstrip_lower, rstrip_lower. Qed.

(** Normalising twice is normalising once. *)
Lemma normalize_idem s : Str.normalize (Str.normalize s) = Str.normalize s.
Proof. unfold Str.normalize. by rewrite strip_lower, strip_idem, lower_idem. Qed.

End NormalForm.

(** ** Answers and tallies *)

Section Tallies.

Implicit Types (records : list Dict.t) (lines answers : list string).

Lemma next_answer_normal valid lines a rest :
  next_answer valid lines = Some (a, rest) ->
  Str.normalize a = a /\ In a valid.
Proof.
  induction lines as [|line lines IH]; [done|]. simpl.
  destruct (Str.mem (Str.normalize line) valid) eqn:Hmem; [|done].
  intros [= <- <-]. split; [apply normalize_idem | by apply mem_In].
Qed.

Lemma script_answers_normal records :
  forall lines, Forall (fun a => Str.normalize a = a) (script_answers records lines).
Proof.
  induction records as [|q records IH]; intros lines; [constructor|].
  simpl. destruct (next_answer _ lines) as [[a rest]|] eqn:Hnext; [|constructor].
  constructor; [|apply IH]. by apply next_answer_normal in Hnext as [? _].
Qed.

Lemma script_answers_length records :
  forall lines, (length (script_answers records lines) <= length records)%nat.
Proof.
  induction records as [|q records IH]; intros lines; [done|].
  simpl. destruct (next_answer _ lines) as [[a rest]|]; simpl; [|lia].
  specialize (IH rest). lia.
Qed.

(** A tally counts no answer twice, and counts only questions whose key
    is what some normalised line can be. *)
Lemma tally_normal_keys records :
  forall answers,
    Forall (fun a => Str.normalize a = a) answers ->
    0 <= tally records answers
      <= Z.of_nat (length (List.filter normal_key records)).
Proof.
  induction records as [|q records IH]; intros answers Hnormal; [simpl; lia|].
  destruct answers as [|a answers]; [simpl; lia|].
  apply Forall_cons in Hnormal as [Ha Hnormal]. specialize (IH answers Hnormal).
  cbn [tally List.filter]. unfold normal_key at 1.
  destruct (String.eqb_spec a (answer_key q)) as [<-|Hne].
  - rewrite Ha, String.eqb_refl. simpl length. lia.
  - destruct (String.eqb _ _); simpl length; lia.
Qed.

Lemma filter_length_le {X} (f : X -> bool) (l : list X) :
  (length (List.filter f l) <= length l)%nat.
Proof.
  induction l as [|x l IH]; [done|]. simpl. destruct (f x); simpl; lia.
Qed.

Lemma tally_all_correct records lines :
  Forall2 (fun q line => Str.normalize line = answer_key q) records lines ->
  tally records (List.map Str.normalize lines) = Z.of_nat (length records).
Proof.
  induction 1 as [|q line records lines Hline _ IH]; [done|].
  cbn [tally List.map length]. rewrite IH, Hline, String.eqb_refl. lia.
Qed.

(** A line that normalises to the answer key of a valid record is
    accepted by that record's question. *)
Lemma answer_key_lines_accepted records lines :
  Forall valid_record records ->
  Forall2 (fun q line => Str.normalize line = answer_key q) records lines ->
  Forall2 (fun q line =>
             Str.mem (Str.normalize line) (Dict.keys (options_of q)) = true)
          records lines.
Proof.
  intros Hvalid Hlines.
  induction Hlines as [|q line records lines Hline _ IH]; [constructor|].
  apply Forall_cons in Hvalid as [Hq Hvalid]. constructor; [|by apply IH].
  destruct (valid_record_fields q Hq) as (text & d & a & e & _ & Hopt & Hans & _ & Hkey).
  unfold options_of. rewrite Hopt. apply mem_In.
  rewrite Hline. unfold answer_key. by rewrite Hans.
Qed.

End Tallies.

(** ** Recorded properties of the session *)

(** X11. An option key that is not in normal form (it has an upper-case
    letter, or white space at either end) is never what [get_user_answer]
    returns, whatever is typed. *)
Theorem get_user_answer_never_returns_unnormalised_key q d key s :
  Dict.get "options" q = Some (VDict d) ->
  Str.normalize key <> key ->
  fst (get_user_answer (VDict q) s) <> Ok key.
Proof.
  intros Hopt Hkey. rewrite (get_user_answer_loop q d) by done.
  destruct (answer_loop_spec (Dict.keys d) (stdin s) s eq_refl)
    as (rejected & _ & [[_ Hrun]|(line & rest & _ & _ & Hrun)]); rewrite Hrun; simpl.
  - discriminate.
  - intros [= Heq]. apply Hkey. rewrite <-Heq. apply normalize_idem.
Qed.

Lemma get_user_answer_never_returns_unnormalised_key_witness :
  fst (get_user_answer (VDict Sample.upper) (Sample.run VNone ["A"; " a"])) <> Ok "A".
Proof.
  apply (get_user_answer_never_returns_unnormalised_key Sample.upper
           [("A", VStr "Jupiter"); ("B", VStr "Mars")] "A"
           (Sample.run VNone ["A"; " a"])).
  - reflexivity.
  - vm_compute. discriminate.
Defined.

(** X12. A session on validated questions that ends normally returns a
    tally between 0 and the number of questions; more precisely, at most
    the number of questions whose answer key is in normal form. *)
Theorem run_quiz_tally_bounds records s t :
  Forall valid_record records ->
  fst (run_quiz (List.map VDict records) s) = Ok t ->
  0 <= t <= Z.of_nat (length (List.filter normal_key records))
  /\ Z.of_nat (length (List.filter normal_key records)) <= Z.of_nat (length records).
Proof.
  intros Hvalid Hrun.
  destruct (run_quiz_from_spec records Hvalid 0 0 s) as (out & s1 & Hspec & _).
  simpl in Hspec. unfold run_quiz in Hrun. rewrite Hspec in Hrun. simpl in Hrun.
  destruct (Nat.eqb _ _); [|discriminate]. injection Hrun as <-.
  split; [apply tally_normal_keys, script_answers_normal|].
  apply inj_le, filter_length_le.
Qed.

Lemma run_quiz_tally_bounds_witness :
  0 <= 2 <= Z.of_nat (length (List.filter normal_key [Sample.sum; Sample.prime]))
  /\ Z.of_nat (length (List.filter normal_key [Sample.sum; Sample.prime]))
      <= Z.of_nat (length [Sample.sum; Sample.prime]).
Proof.
  apply (run_quiz_tally_bounds [Sample.sum; Sample.prime]
           (Sample.run VNone ["b"; "B"]) 2).
  - repeat constructor; apply (verdict_Ok 0); reflexivity.
  - vm_compute. reflexivity.
Defined.

(** X13. If every question of a validated list is answered at once by a
    line that normalises to its answer key, with any case and padding, the
    session returns the number of questions. *)
Theorem run_quiz_perfect_score records (lines rest : list string) s :
  Forall valid_record records ->
  Forall2 (fun q line => Str.normalize line = answer_key q) records lines ->
  stdin s = lines ++ rest ->
  fst (run_quiz (List.map VDict records) s) = Ok (Z.of_nat (length records)).
Proof.
  intros Hvalid Hlines Hin.
  rewrite (run_quiz_scores_matching_lines records lines rest);
    [by rewrite tally_all_correct | done | by apply answer_key_lines_accepted | done].
Qed.

Lemma run_quiz_perfect_score_witness :
  fst (run_quiz (List.map VDict Sample.questions)
         (Sample.run VNone [" B"; "A "; "b"; "left over"]))
  = Ok (Z.of_nat (length Sample.questions)).
Proof.
  apply (run_quiz_perfect_score Sample.questions [" B"; "A "; "b"] ["left over"]
           (Sample.run VNone [" B"; "A "; "b"; "left over"])).
  - repeat constructor; apply (verdict_Ok 0); reflexivity.
  - repeat constructor.
  - reflexivity.
Defined.

(** ** Recorded properties of the loader *)

(** X1. When the file holds a JSON list, [load_questions] returns a new
    list object with the items of the document, in order; it prints
    nothing, reads no input and leaves every existing list as it was. *)
Theorem load_questions_returns_fresh_list filename (items : list value) s :
  files s filename = Document (VList items) ->
  exists l s',
    load_questions filename s = (Ok l, s') /\
    heap s !! l = None /\
    heap s' !! l = Some items /\
    preserves_lists s s' /\
    stdout s' = stdout s /\ stdin s' = stdin s.
Proof.
  intros Hfile. eexists _, _. split; [by apply load_questions_list|].
  assert (heap s !! fresh (dom (heap s)) = None) as Hfresh
    by apply not_elem_of_dom, is_fresh.
  split; [done|]. split; [simpl; apply lookup_insert_eq|].
  split; [|done]. intros l0 [v Hv]. simpl. apply lookup_insert_ne. congruence.
Qed.

Lemma load_questions_returns_fresh_list_witness :
  exists l s',
    load_questions "quiz.q" (Sample.run (VList [VInt 1; VStr "x"]) ["a"]) = (Ok l, s') /\
    heap (Sample.run (VList [VInt 1; VStr "x"]) ["a"]) !! l = None /\
    heap s' !! l = Some [VInt 1; VStr "x"] /\
    preserves_lists (Sample.run (VList [VInt 1; VStr "x"]) ["a"]) s' /\
    stdout s' = stdout (Sample.run (VList [VInt 1; VStr "x"]) ["a"]) /\
    stdin s' = stdin (Sample.run (VList [VInt 1; VStr "x"]) ["a"]).
Proof.
  apply (load_questions_returns_fresh_list "quiz.q" [VInt 1; VStr "x"]
           (Sample.run (VList [VInt 1; VStr "x"]) ["a"])).
  reflexivity.
Defined.

(** X2. In every other case [load_questions] prints exactly one message
    and exits with status 1, without creating a list or reading input: the
    missing file and the invalid JSON have messages of their own, and a
    document that is not a list is reported as a format error. *)
Theorem load_questions_failure_exits filename s :
  (forall items, files s filename <> Document (VList items)) ->
  exists message s',
    load_questions filename s = (Raise (SystemExit 1), s') /\
    stdout s' = stdout s ++ [message] /\
    heap s' = heap s /\ stdin s' = stdin s /\
    (files s filename = Absent -> message = PrintFileNotFound filename) /\
    (files s filename = Malformed -> message = PrintInvalidJSON filename) /\
    (files s filename = Unreadable -> message = PrintLoadError OSError) /\
    (forall v, files s filename = Document v ->
               message = PrintLoadError (ValueError ExpectedList)).
Proof.
  intros Hnot. unfold load_questions, try_except, bind, Py.open_and_load.
  destruct (files s filename) as [| | |v] eqn:Hfile;
    try (eexists _, _; split; [reflexivity|]; by repeat split).
  destruct v; try (eexists _, _; split; [reflexivity|]; by repeat split).
  by destruct (Hnot items).
Qed.

Lemma load_questions_failure_exits_witness :
  exists message s',
    load_questions "quiz.q" (Sample.run (VDict []) ["a"]) = (Raise (SystemExit 1), s') /\
    stdout s' = stdout (Sample.run (VDict []) ["a"]) ++ [message] /\
    heap s' = heap (Sample.run (VDict []) ["a"]) /\
    stdin s' = stdin (Sample.run (VDict []) ["a"]) /\
    (files (Sample.run (VDict []) ["a"]) "quiz.q" = Absent ->
     message = PrintFileNotFound "quiz.q") /\
    (files (Sample.run (VDict []) ["a"]) "quiz.q" = Malformed ->
     message = PrintInvalidJSON "quiz.q") /\
    (files (Sample.run (VDict []) ["a"]) "quiz.q" = Unreadable ->
     message = PrintLoadError OSError) /\
    (forall v, files (Sample.run (VDict []) ["a"]) "quiz.q" = Document v ->
               message = PrintLoadError (ValueError ExpectedList)).
Proof.
  apply (load_questions_failure_exits "quiz.q" (Sample.run (VDict []) ["a"])).
  intros items. simpl. discriminate.
Defined.

(** ** Recorded properties of the validator *)

(** X3. On a list of records, [validate_questions] returns normally, and
    then without any effect, exactly when every record has the five
    fields, an options dict of at least two entries and a string answer
    that is a key of its options. *)
Theorem validate_questions_accepts_exactly_valid_records (records : list Dict.t) s :
  validate_questions (List.map VDict records) s = (Ok tt, s)
  <-> Forall valid_record records.
Proof. apply validate_questions_spec. Qed.



(** X5. Whatever the list holds, records or not, the validator has no
    effect at all: its outcome is the same in every state, the state is
    returned as it was, and it never exits the process itself. *)
Theorem validate_questions_is_stateless (questions : list value) :
  exists r,
    (forall s, validate_questions questions s = (r, s)) /\
    (forall e, r = Raise e -> is_Exception e = true).
Proof.
  destruct (stateless_validate_from questions 0) as [r Hr].
  exists r. split; [done|]. intros e ->.
  pose proof (contained_validate_questions questions
                (Sample.run VNone []) _ _ (Hr _)) as (_ & _ & He).
  by apply He.
Qed.

Lemma find_first_missing (q : Dict.t) (before after : list string) field :
  (forall f, In f before -> is_Some (Dict.get f q)) ->
  Dict.get field q = None ->
  List.find (fun f => negb (Dict.contains f q)) (before ++ field :: after) = Some field.
Proof.
  intros Hbefore Hfield. induction before as [|f before IH]; simpl.
  - apply contains_false_get in Hfield. by rewrite Hfield.
  - assert (Dict.contains f q = true) as ->.
    { apply contains_get, Hbefore. by left. }
    simpl. apply IH. intros f' Hf'. apply Hbefore. by right.
Qed.

(** X6. Among the required fields a record lacks, the validator reports
    the first in the order id, q, options, answer, answer_description,
    with the 1-based position of the record, whatever else is wrong with
    the record. *)
Theorem validate_questions_reports_first_missing_field
    (pre : list Dict.t) (q : Dict.t) (before after : list string) field
    (later : list value) s :
  Forall valid_record pre ->
  required_fields = before ++ field :: after ->
  (forall f, In f before -> is_Some (Dict.get f q)) ->
  Dict.get field q = None ->
  validate_questions (List.map VDict pre ++ VDict q :: later) s
  = (Raise (ValueError (MissingField (Z.of_nat (length pre) + 1) field)), s).
Proof.
  intros Hpre Hreq Hbefore Hfield.
  apply validate_from_first_invalid; [done|].
  unfold verdict. rewrite Hreq, (find_first_missing q before after field) by done.
  reflexivity.
Qed.

Lemma validate_questions_reports_first_missing_field_witness :
  validate_questions
    (List.map VDict [Sample.sum]
     ++ VDict [("id", VInt 7); ("answer", VStr "z"); ("q", VStr "?")] :: [VInt 3])
    (Sample.run VNone [])
  = (Raise (ValueError (MissingField (Z.of_nat (length [Sample.sum]) + 1) "options")),
     Sample.run VNone []).
Proof.
  apply (validate_questions_reports_first_missing_field [Sample.sum]
           [("id", VInt 7); ("answer", VStr "z"); ("q", VStr "?")]
           ["id"; "q"] ["answer"; "answer_description"] "options"
           [VInt 3] (Sample.run VNone [])).
  - repeat constructor; apply (verdict_Ok 0); reflexivity.
  - reflexivity.
  - intros f [<-|[<-|[]]]; by eexists.
  - reflexivity.
Defined.

(** ** Recorded properties of the selector *)

(** X7. When the count equals the number of questions,
    [select_random_questions] returns a new list that is a rearrangement
    of the whole original list, and prints nothing. *)
Theorem select_random_questions_full_shuffle questions s (items : list value) :
  heap s !! questions = Some items ->
  exists l s' (selected : list value),
    select_random_questions questions (Z.of_nat (length items)) s = (Ok l, s') /\
    heap s' !! l = Some selected /\
    selected ≡ₚ items /\
    stdout s' = stdout s.
Proof.
  intros Hq. pose proof (select_sample questions (Z.of_nat (length items)) s) as Hsel.
  rewrite Hq in Hsel. simpl in Hsel.
  destruct Hsel as (shuffled & l & s' & Hrun & Hperm & Hl & _ & _ & Hout & _); [lia|].
  exists l, s', shuffled. split; [done|]. split; [|done].
  rewrite Hl. f_equal. unfold Py.slice_to.
  rewrite (Permutation_length Hperm).
  destruct (Z.ltb_spec (Z.of_nat (length items)) 0); [lia|].
  rewrite Z.min_id, Nat2Z.id, <-(Permutation_length Hperm). apply firstn_all.
Qed.

Lemma select_random_questions_full_shuffle_witness :
  exists l s' (selected : list value),
    select_random_questions 0%nat (Z.of_nat (length (List.map VDict Sample.questions)))
      (Sample.with_list (List.map VDict Sample.questions) []) = (Ok l, s') /\
    heap s' !! l = Some selected /\
    selected ≡ₚ List.map VDict Sample.questions /\
    stdout s' = stdout (Sample.with_list (List.map VDict Sample.questions) []).
Proof.
  apply (select_random_questions_full_shuffle 0%nat
           (Sample.with_list (List.map VDict Sample.questions) [])
           (List.map VDict Sample.questions)).
  reflexivity.
Defined.

(** X8. A count of zero or less is no error for
    [select_random_questions]: nothing is printed, a count of zero gives
    the empty list, and a negative count gives as many questions as the
    list has beyond the absolute value of the count (the slice drops that
    many from the end of the shuffled copy). *)
Theorem select_random_questions_nonpositive_count questions count s (items : list value) :
  heap s !! questions = Some items ->
  count <= 0 ->
  exists l s' (selected : list value),
    select_random_questions questions count s = (Ok l, s') /\
    heap s' !! l = Some selected /\
    stdout s' = stdout s /\
    (count = 0 -> selected = []) /\
    Z.of_nat (length selected) =
      (if Z.eqb count 0 then 0 else Z.max 0 (Z.of_nat (length items) + count)) /\
    (forall q, q ∈ selected -> q ∈ items).
Proof.
  intros Hq Hcount. pose proof (select_sample questions count s) as Hsel.
  rewrite Hq in Hsel. simpl in Hsel.
  destruct Hsel as (shuffled & l & s' & Hrun & Hperm & Hl & _ & _ & Hout & _); [lia|].
  exists l, s', (Py.slice_to count shuffled).
  split; [done|]. split; [done|]. split; [done|].
  pose proof (Permutation_length Hperm) as Hlen.
  split; [|split].
  - intros ->. unfold Py.slice_to. simpl. by rewrite Z.min_l by lia.
  - unfold Py.slice_to. rewrite length_take, Hlen.
    destruct (Z.eqb_spec count 0) as [->|Hne]; [simpl; lia|].
    destruct (Z.ltb_spec count 0); lia.
  - intros q Hin. rewrite <-Hperm. unfold Py.slice_to in Hin.
    by apply subseteq_take in Hin.
Qed.

Lemma select_random_questions_nonpositive_count_witness :
  exists l s' (selected : list value),
    select_random_questions 0%nat (-1)
      (Sample.with_list (List.map VDict Sample.questions) []) = (Ok l, s') /\
    heap s' !! l = Some selected /\
    stdout s' = stdout (Sample.with_list (List.map VDict Sample.questions) []) /\
    (-1 = 0 -> selected = []) /\
    Z.of_nat (length selected) =
      (if Z.eqb (-1) 0 then 0
       else Z.max 0 (Z.of_nat (length (List.map VDict Sample.questions)) + -1)) /\
    (forall q, q ∈ selected -> q ∈ List.map VDict Sample.questions).
Proof.
  apply (select_random_questions_nonpositive_count 0%nat (-1)
           (Sample.with_list (List.map VDict Sample.questions) [])
           (List.map VDict Sample.questions)).
  - reflexivity.
  - lia.
Defined.

(** ** Recorded properties of the display and the session *)

Lemma keys_NoDup (d : Dict.t) : List.NoDup (Dict.keys d).
Proof.
  induction d as [|[k v] d IH]; simpl; constructor.
  - intros [_ Hk]%filter_In. by rewrite String.eqb_refl in Hk.
  - by apply List.NoDup_filter.
Qed.

Lemma items_keys (d : Dict.t) : List.map fst (Dict.items d) = Dict.keys d.
Proof. unfold Dict.items. rewrite List.map_map. simpl. apply List.map_id. Qed.

(** X9. For a valid record, [display_question] prints the number, the
    text, the header and then one line per option: at least two, no key
    twice, in the order of insertion.  These keys, in this order, are the
    ones the prompt of [get_user_answer] then offers.  Nothing is read and
    nothing can fail. *)
Theorem display_question_lists_the_valid_options (q : Dict.t) n s s0 :
  valid_record q ->
  exists text (d : Dict.t) out,
    display_question (VDict q) n s =
      (Ok tt,
       set_stdout
         (stdout s ++ [PrintQuestionNumber n; PrintText text; PrintOptionsHeader]
          ++ List.map (fun kv => PrintOption (fst kv) (snd kv)) (Dict.items d)) s) /\
    (2 <= length (Dict.items d))%nat /\
    List.NoDup (List.map fst (Dict.items d)) /\
    stdout (snd (get_user_answer (VDict q) s0)) =
      stdout s0 ++ Prompt (List.map fst (Dict.items d)) :: out.
Proof.
  intros Hq.
  destruct (valid_record_fields q Hq) as (text & d & a & e & Htext & Hopt & _).
  destruct Hq as (_ & (d' & Hopt' & Hlen) & _).
  assert (d' = d) as -> by congruence.
  rewrite (get_user_answer_loop q d) by done.
  assert (exists out,
            stdout (snd (answer_loop (Dict.keys d) (stdin s0) s0)) =
              stdout s0 ++ Prompt (Dict.keys d) :: out) as [out Hout].
  { destruct (answer_loop_spec (Dict.keys d) (stdin s0) s0 eq_refl)
      as (rejected & _ & [[_ Hrun]|(line & rest & _ & _ & Hrun)]); rewrite Hrun; simpl;
      (destruct rejected as [|r rejected]; simpl; eexists; reflexivity). }
  exists text, d, out. rewrite items_keys.
  split; [by apply display_question_spec|].
  split; [|split; [apply keys_NoDup|done]].
  unfold Dict.items. rewrite length_map. unfold Dict.len in Hlen. lia.
Qed.

Lemma display_question_lists_the_valid_options_witness :
  exists text (d : Dict.t) out,
    display_question (VDict Sample.capital) 4 (Sample.run VNone ["x"; "a"]) =
      (Ok tt,
       set_stdout
         (stdout (Sample.run VNone ["x"; "a"])
          ++ [PrintQuestionNumber 4; PrintText text; PrintOptionsHeader]
          ++ List.map (fun kv => PrintOption (fst kv) (snd kv)) (Dict.items d))
         (Sample.run VNone ["x"; "a"])) /\
    (2 <= length (Dict.items d))%nat /\
    List.NoDup (List.map fst (Dict.items d)) /\
    stdout (snd (get_user_answer (VDict Sample.capital) (Sample.run VNone ["x"; "a"]))) =
      stdout (Sample.run VNone ["x"; "a"]) ++ Prompt (List.map fst (Dict.items d)) :: out.
Proof.
  apply (display_question_lists_the_valid_options Sample.capital 4
           (Sample.run VNone ["x"; "a"]) (Sample.run VNone ["x"; "a"])).
  apply (verdict_Ok 0). reflexivity.
Defined.

(** X10. What validation is for: on a record that has everything but the
    "answer_description", the session shows the question, takes the answer
    and prints the verdict, and only then fails with a [KeyError]; no tally
    is returned. *)
Theorem run_quiz_without_explanation_fails_after_verdict
    (q : Dict.t) text (d : Dict.t) a line (rest : list string) s :
  Dict.get "q" q = Some text ->
  Dict.get "options" q = Some (VDict d) ->
  Dict.get "answer" q = Some (VStr a) ->
  Dict.get "answer_description" q = None ->
  stdin s = line :: rest ->
  Str.mem (Str.normalize line) (Dict.keys d) = true ->
  exists s',
    run_quiz [VDict q] s = (Raise (KeyError "answer_description"), s') /\
    stdin s' = rest /\
    stdout s' =
      stdout s ++ shown text d 1
      ++ [Prompt (Dict.keys d);
          if String.eqb (Str.normalize line) a then PrintCorrect
          else PrintIncorrect (VStr a)].
Proof.
  intros Htext Hopt Hans He Hin Hmem.
  unfold run_quiz. cbn [run_quiz_from]. unfold bind at 1.
  rewrite (display_question_spec q text d) by done.
  unfold bind at 1. rewrite (get_user_answer_loop q d) by done.
  simpl stdin. rewrite Hin, answer_loop_step by done. cbv zeta. rewrite Hmem.
  unfold bind at 1, Py.getitem at 1. rewrite Hans. unfold ret at 1.
  unfold Py.str_eq.
  destruct (String.eqb (Str.normalize line) a).
  - unfold bind, print, ret, Py.getitem. rewrite He.
    eexists. split; [reflexivity|]. split; [done|]. simpl.
    by rewrite <-!app_assoc.
  - unfold bind, print, ret, Py.getitem. rewrite Hans, He.
    eexists. split; [reflexivity|]. split; [done|]. simpl.
    by rewrite <-!app_assoc.
Qed.

Lemma run_quiz_without_explanation_fails_after_verdict_witness :
  exists s',
    run_quiz [VDict [("q", VStr "?"); ("options", VDict [("a", VStr "x"); ("b", VStr "y")]);
                     ("answer", VStr "b")]]
      (Sample.run VNone [" B "; "next"])
    = (Raise (KeyError "answer_description"), s') /\
    stdin s' = ["next"] /\
    stdout s' =
      stdout (Sample.run VNone [" B "; "next"])
      ++ shown (VStr "?") [("a", VStr "x"); ("b", VStr "y")] 1
      ++ [Prompt (Dict.keys [("a", VStr "x"); ("b", VStr "y")]);
          if String.eqb (Str.normalize " B ") "b" then PrintCorrect
          else PrintIncorrect (VStr "b")].
Proof.
  apply (run_quiz_without_explanation_fails_after_verdict
           [("q", VStr "?"); ("options", VDict [("a", VStr "x"); ("b", VStr "y")]);
            ("answer", VStr "b")]
           (VStr "?") [("a", VStr "x"); ("b", VStr "y")] "b" " B " ["next"]
           (Sample.run VNone [" B "; "next"])); reflexivity.
Defined.

(** ** Recorded properties of the run *)



Lemma load_questions_failure filename s :
  (forall items, files s filename <> Document (VList items)) ->
  exists message,
    load_questions filename s =
      (Raise (SystemExit 1),
       set_stdout (stdout s ++ [message]) (set_opened (opened s ++ [filename]) s)).
Proof.
  intros Hnot. unfold load_questions, try_except, bind, Py.open_and_load.
  destruct (files s filename) as [| | |v] eqn:Hfile; try (eexists; reflexivity).
  destruct v; try (eexists; reflexivity). by destruct (Hnot items).
Qed.





(** X16. If the file cannot be loaded as a list, a run with a count of
    at least one prints the loader's one message and ends with status 1;
    no list is created and no input is read. *)
Theorem main_stops_on_load_failure filename count s :
  (forall items, files s filename <> Document (VList items)) ->
  1 <= count ->
  exists message s',
    main filename count s = (Raise (SystemExit 1), s') /\
    stdout s' = stdout s ++ [message] /\
    heap s' = heap s /\ stdin s' = stdin s.
Proof.
  intros Hnot Hcount.
  assert (Z.ltb count 1 = false) as Hc by (apply Z.ltb_ge; lia).
  destruct (load_questions_failure filename s Hnot) as [message Hload].
  exists message. eexists. split.
  - unfold main, bind at 1. rewrite Hc. unfold ret at 1.
    unfold try_except, bind at 1. by rewrite Hload.
  - by repeat split.
Qed.

Lemma main_stops_on_load_failure_witness :
  exists message s',
    main "quiz.q" 3 (initial (fun _ => Absent) (fun n => n) ["a"])
      = (Raise (SystemExit 1), s') /\
    stdout s' = stdout (initial (fun _ => Absent) (fun n => n) ["a"]) ++ [message] /\
    heap s' = heap (initial (fun _ => Absent) (fun n => n) ["a"]) /\
    stdin s' = stdin (initial (fun _ => Absent) (fun n => n) ["a"]).
Proof.
  apply (main_stops_on_load_failure "quiz.q" 3 (initial (fun _ => Absent) (fun n => n) ["a"])).
  - intros items. simpl. discriminate.
  - lia.
Defined.

(** X17. If validation fails, the run prints that one error, as "Error"
    for a [ValueError] and as "Unexpected error" otherwise, and ends with
    status 1 before any question is shown or any input is read. *)
Theorem main_reports_validation_error filename count (items : list value) e s s0 :
  files s filename = Document (VList items) ->
  1 <= count ->
  fst (validate_questions items s0) = Raise e ->
  exists s',
    main filename count s = (Raise (SystemExit 1), s') /\
    stdout s' =
      stdout s ++ [if is_ValueError e then PrintError e else PrintUnexpected e] /\
    stdin s' = stdin s.
Proof.
  intros Hfile Hcount Hraise.
  assert (Z.ltb count 1 = false) as Hc by (apply Z.ltb_ge; lia).
  destruct (stateless_validate_from items 0) as [r Hr].
  unfold validate_questions in Hraise. rewrite Hr in Hraise. simpl in Hraise. subst r.
  assert (is_Exception e = true) as He.
  { pose proof (contained_validate_questions items s0 _ _ (Hr s0)) as (_ & _ & He).
    by apply He. }
  set (l := fresh (dom (heap s))).
  set (s1 := set_heap (<[l := items]> (heap s)) (set_opened (opened s ++ [filename]) s)).
  assert (heap s1 !! l = Some items) as Hl by (simpl; apply lookup_insert_eq).
  unfold main, bind at 1. rewrite Hc. unfold ret at 1.
  unfold try_except, bind at 1. rewrite (load_questions_list filename items) by done.
  fold l s1. unfold bind at 1, deref at 1. rewrite Hl. simpl default.
  unfold bind at 1, validate_questions. rewrite Hr, He.
  destruct (is_ValueError e); (eexists; split; [reflexivity|]; by split).
Qed.

Lemma main_reports_validation_error_witness :
  exists s',
    main "quiz.q" 1
      (Sample.run (VList [VDict Sample.sum; VDict [("id", VInt 7)]]) ["a"])
      = (Raise (SystemExit 1), s') /\
    stdout s' =
      stdout (Sample.run (VList [VDict Sample.sum; VDict [("id", VInt 7)]]) ["a"])
      ++ [if is_ValueError (ValueError (MissingField 2 "q"))
          then PrintError (ValueError (MissingField 2 "q"))
          else PrintUnexpected (ValueError (MissingField 2 "q"))] /\
    stdin s' = stdin (Sample.run (VList [VDict Sample.sum; VDict [("id", VInt 7)]]) ["a"]).
Proof.
  apply (main_reports_validation_error "quiz.q" 1
           [VDict Sample.sum; VDict [("id", VInt 7)]]
           (ValueError (MissingField 2 "q"))
           (Sample.run (VList [VDict Sample.sum; VDict [("id", VInt 7)]]) ["a"])
           (Sample.run VNone [])).
  - reflexivity.
  - lia.
  - reflexivity.
Defined.

(** X18. Whatever the file, the count and the input are, the run ends
    normally or with [SystemExit(1)]: no other exception leaves [main],
    and the exit status is 0 or 1. *)
Theorem main_exit_status_is_0_or_1 filename count s :
  (fst (main filename count s) = Ok tt
   \/ fst (main filename count s) = Raise (SystemExit 1))
  /\ (exit_status (fst (main filename count s)) = 0
      \/ exit_status (fst (main filename count s)) = 1).
Proof.
  destruct (main_cases filename count s) as ([Hr|Hr] & _); rewrite Hr; simpl; auto.
Qed.

(** X19. The run opens the named file once when the count is at least
    one and no file at all otherwise; it opens no other file and leaves
    the file system as it is. *)
Theorem main_opens_the_named_file_once filename count s :
  opened (snd (main filename count s)) =
    (if Z.ltb count 1 then opened s else opened s ++ [filename])
  /\ files (snd (main filename count s)) = files s.
Proof. apply main_cases. Qed.

(** X20. When the count exceeds the number of records of a non-empty
    valid file, the run prints the warning and the notice once each and
    then asks every record of the file, in the order of the file: nothing
    is shuffled on this path.  It ends normally exactly when the script
    answers all of them. *)
Theorem main_undersupply_asks_all_in_file_order filename count (records : list Dict.t) s :
  files s filename = Document (VList (List.map VDict records)) ->
  Forall valid_record records ->
  records <> [] ->
  Z.of_nat (length records) < count ->
  exists out r s',
    main filename count s = (r, s') /\
    stdout s' =
      stdout s ++ [PrintWarning count (Z.of_nat (length records));
                   PrintProceeding (Z.of_nat (length records));
                   PrintStarting (Z.of_nat (length records))] ++ out /\
    List.filter is_feedback out =
      expected_feedback records (script_answers records (stdin s)) /\
    (r = Ok tt <-> length (script_answers records (stdin s)) = length records).
Proof.
  intros Hfile Hvalid Hne Hlt.
  assert (Z.ltb count 1 = false) as Hc1 by (apply Z.ltb_ge; lia).
  set (items := List.map VDict records).
  set (l := fresh (dom (heap s))).
  set (s1 := set_heap (<[l := items]> (heap s)) (set_opened (opened s ++ [filename]) s)).
  assert (heap s1 !! l = Some items) as Hl by (simpl; apply lookup_insert_eq).
  assert (length items = length records) as Hlen by apply length_map.
  unfold main, bind at 1. rewrite Hc1. unfold ret at 1.
  unfold try_except, bind at 1. rewrite (load_questions_list filename items) by done.
  fold l s1. unfold bind at 1, deref at 1. rewrite Hl. simpl default.
  unfold bind at 1, validate_questions. unfold items at 1.
  rewrite validate_from_valid by done. unfold bind at 1.
  unfold Py.len at 1. rewrite Hlen.
  apply Z.ltb_lt in Hlt. rewrite Hlt.
  unfold bind at 1, print at 1. unfold bind at 1, print at 1. unfold ret at 1.
  cbv beta.
  replace (Py.len items) with (Z.of_nat (length records))
    by (unfold Py.len; by rewrite Hlen).
  match goal with |- context [bind (deref l) _ ?s2] =>
    destruct (session_and_score l records s2) as (out & s' & Hrun & Hout & Hfb);
      [done | done | done |]; rewrite Hrun; simpl in Hout, Hfb end.
  destruct (Nat.eqb _ _) eqn:Hcomplete.
  - eexists _, _, s'. split; [reflexivity|]. split; [|split].
    + rewrite Hout, <-!app_assoc. simpl. reflexivity.
    + rewrite List.filter_app. simpl. by rewrite app_nil_r.
    + split; [intros _; by apply Nat.eqb_eq | done].
  - eexists _, _, _. split; [reflexivity|]. split; [|split].
    + simpl. rewrite Hout, app_nil_r, <-!app_assoc. simpl. reflexivity.
    + rewrite List.filter_app. simpl. by rewrite app_nil_r.
    + apply Nat.eqb_neq in Hcomplete. split; [discriminate|].
      intros Heq. by destruct Hcomplete.
Qed.

Lemma main_undersupply_asks_all_in_file_order_witness :
  exists out r s',
    main "quiz.q" 7 (Sample.run (VList (List.map VDict Sample.questions)) ["b"; "a"; "a"])
      = (r, s') /\
    stdout s' =
      stdout (Sample.run (VList (List.map VDict Sample.questions)) ["b"; "a"; "a"])
      ++ [PrintWarning 7 (Z.of_nat (length Sample.questions));
          PrintProceeding (Z.of_nat (length Sample.questions));
          PrintStarting (Z.of_nat (length Sample.questions))] ++ out /\
    List.filter is_feedback out =
      expected_feedback Sample.questions
        (script_answers Sample.questions
           (stdin (Sample.run (VList (List.map VDict Sample.questions)) ["b"; "a"; "a"]))) /\
    (r = Ok tt <->
     length (script_answers Sample.questions
               (stdin (Sample.run (VList (List.map VDict Sample.questions))
                         ["b"; "a"; "a"])))
       = length Sample.questions).
Proof.
  apply (main_undersupply_asks_all_in_file_order "quiz.q" 7 Sample.questions
           (Sample.run (VList (List.map VDict Sample.questions)) ["b"; "a"; "a"])).
  - reflexivity.
  - repeat constructor; apply (verdict_Ok 0); reflexivity.
  - discriminate.
  - simpl. lia.
Defined.

(** ** The input and the numbering of a session *)

Section SessionTrace.

Lemma filter_number_shown text (d : Dict.t) n :
  List.filter is_question_number (shown text d n) = [PrintQuestionNumber n].
Proof.
  unfold shown. simpl. f_equal.
  induction (Dict.items d) as [|kv items IH]; [done|]. by simpl.
Qed.

Lemma filter_number_reprompts valid (rejected : list string) :
  List.filter is_question_number (reprompts valid rejected) = [].
Proof. induction rejected as [|l rejected IH]; [done|]. by simpl. Qed.

Lemma filter_number_feedback a e user_answer :
  List.filter is_question_number (feedback a e user_answer) = [].
Proof. unfold feedback. by destruct (String.eqb user_answer a). Qed.

(** The session reads the script up to the last answer it takes and no
    further, and numbers the questions it shows consecutively. *)
Lemma run_quiz_from_trace (records : list Dict.t) :
  Forall valid_record records ->
  forall i c s,
    exists out,
      stdin (snd (run_quiz_from i c (List.map VDict records) s))
        = script_rest records (stdin s) /\
      stdout (snd (run_quiz_from i c (List.map VDict records) s)) = stdout s ++ out /\
      List.filter is_question_number out
        = question_numbers i
            (Nat.min (S (length (script_answers records (stdin s)))) (length records)).
Proof.
  induction 1 as [|q records Hq _ IH]; intros i c s.
  - exists []. simpl. by rewrite app_nil_r.
  - destruct (valid_record_fields q Hq) as (text & d & a & e & Htext & Hopt & Hans & He & _).
    cbn [List.map]. rewrite (run_quiz_from_cons i c q _ s text d a e) by done.
    cbv zeta. cbn [script_answers script_rest].
    unfold options_of. rewrite Hopt.
    set (s1 := set_stdout (stdout s ++ shown text d (i + 1)) s).
    destruct (answer_loop_spec (Dict.keys d) (stdin s1) s1 eq_refl)
      as (rejected & Hrej & [[Hlines Hrun]|(line & rest & Hlines & Hok & Hrun)]).
    + rewrite Hrun. simpl in Hlines. rewrite Hlines.
      rewrite next_answer_rejected by done.
      eexists. split; [done|]. simpl. split; [by rewrite <-app_assoc|].
      rewrite !List.filter_app, filter_number_shown, filter_number_reprompts. done.
    + rewrite Hrun. simpl in Hlines. rewrite Hlines.
      rewrite next_answer_accepted by done.
      match goal with |- context [run_quiz_from ?i' ?c' _ ?s3] =>
        destruct (IH i' c' s3) as (out & Hin & Hout & Hnum);
        change (stdin s3) with rest in *
      end.
      exists (shown text d (i + 1) ++ reprompts (Dict.keys d) rejected
              ++ [Prompt (Dict.keys d)] ++ feedback a e (Str.normalize line) ++ out).
      split; [done|]. split.
      * rewrite Hout. simpl. by rewrite <-!app_assoc.
      * rewrite !List.filter_app, filter_number_shown, filter_number_reprompts,
          filter_number_feedback, Hnum. done.
Qed.

End SessionTrace.

Lemma next_answer_suffix valid (lines : list string) a rest :
  next_answer valid lines = Some (a, rest) ->
  exists consumed, lines = consumed ++ rest.
Proof.
  induction lines as [|line lines IH]; [done|]. simpl.
  destruct (Str.mem _ _).
  - intros [= _ <-]. by exists [line].
  - intros [consumed ->]%IH. by exists (line :: consumed).
Qed.

Lemma script_rest_suffix (records : list Dict.t) :
  forall lines, exists consumed, lines = consumed ++ script_rest records lines.
Proof.
  induction records as [|q records IH]; intros lines; [by exists []|].
  simpl. destruct (next_answer _ lines) as [[a rest]|] eqn:Hnext.
  - apply next_answer_suffix in Hnext as [consumed ->].
    destruct (IH rest) as [consumed' Hrest].
    exists (consumed ++ consumed'). by rewrite <-app_assoc, <-Hrest.
  - exists lines. by rewrite app_nil_r.
Qed.

(** X21. A session on validated questions reads the input up to the
    last answer it takes and no further: what it leaves on the input is a
    suffix of what it found, namely the lines after that answer (or
    nothing, if the input ended first). *)
Theorem run_quiz_reads_no_further (records : list Dict.t) s :
  Forall valid_record records ->
  stdin (snd (run_quiz (List.map VDict records) s)) = script_rest records (stdin s)
  /\ exists consumed,
       stdin s = consumed ++ stdin (snd (run_quiz (List.map VDict records) s)).
Proof.
  intros Hvalid.
  destruct (run_quiz_from_trace records Hvalid 0 0 s) as (out & Hin & _).
  unfold run_quiz. rewrite Hin. split; [done|]. apply script_rest_suffix.
Qed.

Lemma run_quiz_reads_no_further_witness :
  stdin (snd (run_quiz (List.map VDict [Sample.sum; Sample.prime])
                (Sample.run VNone ["x"; "b"; "a"; "left"; "over"])))
    = script_rest [Sample.sum; Sample.prime]
        (stdin (Sample.run VNone ["x"; "b"; "a"; "left"; "over"]))
  /\ exists consumed,
       stdin (Sample.run VNone ["x"; "b"; "a"; "left"; "over"])
       = consumed
         ++ stdin (snd (run_quiz (List.map VDict [Sample.sum; Sample.prime])
                          (Sample.run VNone ["x"; "b"; "a"; "left"; "over"]))).
Proof.
  apply (run_quiz_reads_no_further [Sample.sum; Sample.prime]
           (Sample.run VNone ["x"; "b"; "a"; "left"; "over"])).
  repeat constructor; apply (verdict_Ok 0); reflexivity.
Defined.

(** X22. A session on validated questions numbers the questions it shows
    1, 2, 3, ... in the order it asks them, whatever their ids: it shows
    one more question than it gets answers, up to the number of
    questions. *)
Theorem run_quiz_numbers_questions_from_one (records : list Dict.t) s :
  Forall valid_record records ->
  exists out,
    stdout (snd (run_quiz (List.map VDict records) s)) = stdout s ++ out /\
    List.filter is_question_number out
      = question_numbers 0
          (Nat.min (S (length (script_answers records (stdin s)))) (length records)).
Proof.
  intros Hvalid.
  destruct (run_quiz_from_trace records Hvalid 0 0 s) as (out & _ & Hout & Hnum).
  by exists out.
Qed.

Lemma run_quiz_numbers_questions_from_one_witness :
  exists out,
    stdout (snd (run_quiz (List.map VDict Sample.questions) (Sample.run VNone ["b"; "c"])))
      = stdout (Sample.run VNone ["b"; "c"]) ++ out /\
    List.filter is_question_number out
      = question_numbers 0
          (Nat.min
             (S (length (script_answers Sample.questions
                           (stdin (Sample.run VNone ["b"; "c"])))))
             (length Sample.questions)).
Proof.
  apply (run_quiz_numbers_questions_from_one Sample.questions
           (Sample.run VNone ["b"; "c"])).
  repeat constructor; apply (verdict_Ok 0); reflexivity.
Defined.

(** The valid records at the head of a list are passed over. *)
Lemma validate_from_valid_prefix (pre : list Dict.t) (rest : list value) i s :
  Forall valid_record pre ->
  validate_from i (List.map VDict pre ++ rest) s
  = validate_from (i + Z.of_nat (length pre)) rest s.
Proof.
  intros Hpre. revert i. induction Hpre as [|p pre Hp _ IH]; intros i.
  - simpl. by rewrite Z.add_0_r.
  - cbn [List.map app validate_from]. unfold bind at 1.
    rewrite validate_question_verdict. apply (verdict_Ok i) in Hp as ->.
    rewrite IH. f_equal. simpl length. lia.
Qed.

(** X23. A list item that is a number, a boolean or null is not reported
    as a badly formed question: after valid records, the membership test
    on it raises a [TypeError], which carries no position, and nothing
    after it is looked at. *)
Theorem validate_questions_scalar_item_is_a_type_error
    (pre : list Dict.t) (item : value) (later : list value) s :
  Forall valid_record pre ->
  (forall d, item <> VDict d) ->
  (forall xs, item <> VList xs) ->
  (forall t, item <> VStr t) ->
  validate_questions (List.map VDict pre ++ item :: later) s
  = (Raise (TypeError item), s).
Proof.
  intros Hpre Hd Hl Hs. unfold validate_questions.
  rewrite validate_from_valid_prefix by done.
  cbn [validate_from]. unfold bind at 1, validate_question, bind at 1.
  cbn [required_fields check_fields]. unfold bind at 1.
  destruct item as [| | | |t|xs|d]; try done.
  - by destruct (Hs t).
  - by destruct (Hl xs).
  - by destruct (Hd d).
Qed.

Lemma validate_questions_scalar_item_is_a_type_error_witness :
  validate_questions (List.map VDict [Sample.sum] ++ VInt 5 :: [VDict Sample.prime])
    (Sample.run VNone [])
  = (Raise (TypeError (VInt 5)), Sample.run VNone []).
Proof.
  apply (validate_questions_scalar_item_is_a_type_error [Sample.sum] (VInt 5)
           [VDict Sample.prime] (Sample.run VNone [])).
  - repeat constructor; apply (verdict_Ok 0); reflexivity.
  - discriminate.
  - discriminate.
  - discriminate.
Defined.
